(** * clarify-mcp: the [ask_clarification] tool of [hitl_server.py]

    A shallow embedding of the tool and the proofs of its specified
    properties.  The tool builds a display prompt, issues one bounded
    elicitation request, extracts a text answer from whatever the channel
    returned and maps it back onto the caller's list of choices.

    Python text is a sequence of code points; the Unicode character
    properties the interpreter consults ([str.isspace], [str.isdigit],
    the decimal value used by [int], [str.lower]) are taken from a
    [Runtime] class, so that every theorem holds for whichever Unicode
    database the interpreter ships.  [sample_runtime] populates it for
    the examples. *)

From Stdlib Require Import String Ascii List ZArith NArith Bool Lia DecimalNat.
Import ListNotations.

Set Implicit Arguments.

(** ** Python text *)

(** A code point. *)
Definition char := N.

(** [str]: an immutable sequence of code points. *)
Definition str := list char.

(** A literal of the source, read as code points. *)
Definition lit (s : string) : str := map N_of_ascii (list_ascii_of_string s).
Arguments lit s%_string.

(** ["\n"] *)
Definition NL : str := [10%N].

Definition str_eqb (a b : str) : bool :=
  if list_eq_dec N.eq_dec a b then true else false.

(** Truthiness of a text: the empty text is falsy. *)
Definition is_empty (s : str) : bool :=
  match s with [] => true | _ :: _ => false end.

(** ** Exceptions and outcomes *)

(** The exception classes the tool tells apart.  Only instances of
    [Exception] are modelled: interpreter and scheduler signals that sit
    outside [Exception] (task cancellation, keyboard interrupt) are not
    failures of an operation and pass through every handler of the tool
    untouched. *)
Inductive exc_class : Type :=
| AsyncioTimeoutError            (* asyncio.TimeoutError *)
| TimeoutError                   (* the builtin *)
| RuntimeError
| IndexError
| ValueError
| OtherException (name : string).

(** An exception instance: its class, what [str(e)] does and
    [e.__cause__].  [Exc] is an exception whose [__str__] returns [text];
    [ExcNoText] is one whose [__str__] raises [raised]. *)
#[warnings="-register-all"]
Inductive exception : Type :=
| Exc (cls : exc_class) (text : str) (cause : option exception)
| ExcNoText (cls : exc_class) (raised : exception) (cause : option exception).

Definition exc_cls (e : exception) : exc_class :=
  match e with
  | Exc c _ _ => c
  | ExcNoText c _ _ => c
  end.

Definition exc_cause (e : exception) : option exception :=
  match e with
  | Exc _ _ c => c
  | ExcNoText _ _ c => c
  end.

(** What evaluating an expression gives: a value, or a raised exception. *)
Inductive outcome (A : Type) : Type :=
| Returns (a : A)
| Raises (e : exception).
Arguments Raises {A} e.

Definition bind_outcome {A B} (m : outcome A) (k : A -> outcome B) : outcome B :=
  match m with
  | Returns a => k a
  | Raises e => Raises e
  end.

(** [str(e)] for an exception [e]. *)
Definition str_of_exception (e : exception) : outcome str :=
  match e with
  | Exc _ text _ => Returns text
  | ExcNoText _ raised _ => Raises raised
  end.

(** [try: body / except Exception: handler] *)
Definition try_except {A} (body : outcome A) (handler : exception -> outcome A)
  : outcome A :=
  match body with
  | Returns a => Returns a
  | Raises e => handler e
  end.

(** [except Exception: pass] after a body that would have set an optional
    variable: the variable keeps its initial [None]. *)
Definition swallow {A} (_ : exception) : outcome (option A) := Returns None.

Declare Scope py_scope.
Delimit Scope py_scope with py.
Notation "x <- m ;; k" := (bind_outcome m (fun x => k))
  (at level 100, m at next level, right associativity) : py_scope.
Open Scope py_scope.

(** ** The interpreter's character tables *)

Class Runtime : Type := {
  (** [Py_UNICODE_ISSPACE]: what [strip()] and [split()] treat as blank. *)
  isspace_char : char -> bool;
  (** The per-character test of [str.isdigit]: Numeric_Type Digit or Decimal. *)
  isdigit_char : char -> bool;
  (** [Py_UNICODE_TODECIMAL]: the value [int] gives a decimal digit. *)
  decimal_value : char -> option Z;
  (** [str.lower] *)
  lower : str -> str;
  (** [sys.get_int_max_str_digits()]: [0] switches the limit off, any other
      setting is at least 640; interpreters without the limit have [0]. *)
  int_max_str_digits : nat;
  (** Whether [asyncio.TimeoutError] is the builtin [TimeoutError]
      (it is from Python 3.11 on). *)
  asyncio_timeout_is_builtin : bool
}.

Section Text.
Context {rt : Runtime}.

Fixpoint drop_while (p : char -> bool) (s : str) : str :=
  match s with
  | [] => []
  | c :: s' => if p c then drop_while p s' else s
  end.

Fixpoint take_while (p : char -> bool) (s : str) : str :=
  match s with
  | [] => []
  | c :: s' => if p c then c :: take_while p s' else []
  end.

(** [s.lstrip()], [s.rstrip()], [s.strip()] *)
Definition lstrip (s : str) : str := drop_while isspace_char s.
Definition rstrip (s : str) : str := rev (drop_while isspace_char (rev s)).
Definition strip (s : str) : str := rstrip (lstrip s).

(** [s.rstrip(chars)]: drops trailing characters that occur in [chars]. *)
Definition mem_char (chars : str) (c : char) : bool := existsb (N.eqb c) chars.
Definition rstrip_chars (chars : str) (s : str) : str :=
  rev (drop_while (mem_char chars) (rev s)).

(** [s.split()]: the maximal runs of non-blank characters, in order.
    [cur] holds the run being read, reversed. *)
Fixpoint split_from (cur : str) (s : str) : list str :=
  match s with
  | [] => if is_empty cur then [] else [rev cur]
  | c :: s' =>
      if isspace_char c
      then (if is_empty cur then split_from [] s' else rev cur :: split_from [] s')
      else split_from (c :: cur) s'
  end.
Definition split (s : str) : list str := split_from [] s.

(** [s.isdigit()]: at least one character, and all of them digits. *)
Definition isdigit (s : str) : bool := negb (is_empty s) && forallb isdigit_char s.

(** Horner evaluation of decimal digits; [None] at a character without a
    decimal value. *)
Fixpoint decimal_digits (acc : Z) (s : str) : option Z :=
  match s with
  | [] => Some acc
  | c :: s' =>
      match decimal_value c with
      | Some d => decimal_digits (10 * acc + d) s'
      | None => None
      end
  end.

(** [int(s)] on a text that passed [isdigit()], the only use the tool
    makes of it.  Such a text carries no sign, blank or underscore, so the
    conversion succeeds exactly when every character has a decimal value
    and the number of digits respects the interpreter's limit; it raises
    [ValueError] otherwise. *)
Definition int_ (s : str) : outcome Z :=
  let invalid := Raises (Exc ValueError (lit "invalid literal for int() with base 10") None) in
  if is_empty s then invalid
  else if negb (Nat.eqb int_max_str_digits 0) && Nat.ltb int_max_str_digits (length s)
  then Raises (Exc ValueError (lit "Exceeds the limit for integer string conversion") None)
  else match decimal_digits 0 s with
       | Some z => Returns z
       | None => invalid
       end.

(** The first whitespace-delimited token of a text, in the words of the
    specification: skip the leading blanks, then read up to the next
    blank.  There is none when nothing but blanks is left.  [split_first]
    relates it to [s.split()[0]]. *)
Definition first_token (s : str) : option str :=
  match lstrip s with
  | [] => None
  | rest => Some (take_while (fun c => negb (isspace_char c)) rest)
  end.

End Text.

(** [l[i]] on a list, with Python's negative indices. *)
Definition list_index {A} (l : list A) (i : Z) : outcome A :=
  let n := Z.of_nat (length l) in
  let j := if (i <? 0)%Z then (i + n)%Z else i in
  if ((0 <=? j)%Z && (j <? n)%Z)%bool
  then match nth_error l (Z.to_nat j) with
       | Some a => Returns a
       | None => Raises (Exc IndexError (lit "list index out of range") None)
       end
  else Raises (Exc IndexError (lit "list index out of range") None).

(** ** Display prompt *)

Definition digit_char (d : nat) : char := N.of_nat (48 + d).

Fixpoint uint_chars (u : Decimal.uint) : str :=
  match u with
  | Decimal.Nil => []
  | Decimal.D0 u' => digit_char 0 :: uint_chars u'
  | Decimal.D1 u' => digit_char 1 :: uint_chars u'
  | Decimal.D2 u' => digit_char 2 :: uint_chars u'
  | Decimal.D3 u' => digit_char 3 :: uint_chars u'
  | Decimal.D4 u' => digit_char 4 :: uint_chars u'
  | Decimal.D5 u' => digit_char 5 :: uint_chars u'
  | Decimal.D6 u' => digit_char 6 :: uint_chars u'
  | Decimal.D7 u' => digit_char 7 :: uint_chars u'
  | Decimal.D8 u' => digit_char 8 :: uint_chars u'
  | Decimal.D9 u' => digit_char 9 :: uint_chars u'
  end.

(** [str(n)] for a natural number: its decimal digits. *)
Definition str_of_nat (n : nat) : str := uint_chars (Nat.to_uint n).

(** [enumerate(l)], counting from [start]. *)
Fixpoint enumerate_from {A} (start : nat) (l : list A) : list (nat * A) :=
  match l with
  | [] => []
  | a :: l' => (start, a) :: enumerate_from (S start) l'
  end.
Definition enumerate {A} (l : list A) : list (nat * A) := enumerate_from 0 l.

(** [sep.join(parts)] *)
Fixpoint join (sep : str) (parts : list str) : str :=
  match parts with
  | [] => []
  | p :: ps => match ps with
               | [] => p
               | _ :: _ => p ++ sep ++ join sep ps
               end
  end.

(** Truthiness of the optional [choices] argument: [None] and [[]] are falsy. *)
Definition provided (choices : option (list str)) : list str :=
  match choices with
  | Some cs => cs
  | None => []
  end.

(** f"{i+1}) {str(c)}" *)
Definition option_line (ic : nat * str) : str :=
  str_of_nat (fst ic + 1) ++ lit ") " ++ snd ic.

(** Lines 91-94. *)
Definition display_prompt (prompt : str) (choices : option (list str)) : str :=
  match provided choices with
  | [] => prompt
  | cs =>
      let lines := join NL (map option_line (enumerate cs)) in
      prompt ++ NL ++ NL ++ lit "Options:" ++ NL ++ lines ++ NL
             ++ lit "(Type the value or its number)"
  end.

(** The option lines as the specification words them: each choice after
    its position, counted from [k]. *)
Fixpoint numbered_from (k : nat) (choices : list str) : list str :=
  match choices with
  | [] => []
  | c :: cs => (str_of_nat k ++ lit ") " ++ c) :: numbered_from (S k) cs
  end.

(** The display prompt as the specification words it, line by line: the
    prompt, a blank line, the header, the numbered choices, the
    instruction. *)
Definition display_lines (prompt : str) (choices : list str) : list str :=
  [prompt; lit ""; lit "Options:"]
  ++ numbered_from 1 choices
  ++ [lit "(Type the value or its number)"].

(** ** Choice resolution *)

Section Resolution.
Context {rt : Runtime}.

(** The characters [rstrip] removes from the token. *)
Definition TOKEN_TAIL : str := lit ").:]".

(** The body of the [try] at lines 148-153; its value is what [selected]
    holds when the body completes. *)
Definition select_by_number (choices : list str) (raw : str) : outcome (option str) :=
  first <- list_index (split raw) 0 ;;
  let token := rstrip_chars TOKEN_TAIL first in
  if isdigit token then
    idx <- int_ token ;;
    if ((1 <=? idx)%Z && (idx <=? Z.of_nat (length choices))%Z)%bool then
      c <- list_index choices (idx - 1) ;;
      Returns (Some c)
    else Returns None
  else Returns None.

(** The loop at lines 157-160: the first choice equal to [raw] up to case. *)
Fixpoint select_by_text (choices : list str) (raw : str) : option str :=
  match choices with
  | [] => None
  | c :: cs =>
      if str_eqb (lower raw) (lower c) then Some c else select_by_text cs raw
  end.

(** Lines 144-163.  The extracted answer is always text, so the
    [isinstance(answer, str)] test holds. *)
Definition resolve_choice (choices : option (list str)) (answer : str) : outcome str :=
  match provided choices with
  | [] => Returns answer
  | cs =>
      let raw := strip answer in
      selected <- try_except (select_by_number cs raw) swallow ;;
      let selected :=
        match selected with
        | None => select_by_text cs raw
        | Some c => Some c
        end in
      match selected with
      | Some c => Returns c
      | None => Returns answer
      end
  end.

(** In the words of the specification: the answer [raw] names the choice
    at position [i], counted from one.  Its first token, once the trailing
    punctuation is dropped, consists of digits only and parses to [i],
    which lies within the [n] choices. *)
Definition valid_index (n : nat) (raw : str) (i : Z) : Prop :=
  exists token,
    first_token raw = Some token /\
    forallb isdigit_char (rstrip_chars TOKEN_TAIL token) = true /\
    int_ (rstrip_chars TOKEN_TAIL token) = Returns i /\
    (1 <= i <= Z.of_nat n)%Z.

End Resolution.

(** ** What the channel hands back *)

(** A Python object as far as the tool inspects it: [None], a text, or an
    object carrying attributes, possibly the entries of a mapping (for a
    [dict]), and the outcome of converting it to text, which is whatever
    its [__str__] does. *)
#[warnings="-register-all"]
Inductive pyobj : Type :=
| PyNone
| PyStr (s : str)
| PyObj (attrs : list (string * pyobj))
        (items : option (list (str * pyobj)))
        (text : outcome str).

Fixpoint assoc {K V} (eqb : K -> K -> bool) (k : K) (l : list (K * V)) : option V :=
  match l with
  | [] => None
  | (k', v) :: l' => if eqb k k' then Some v else assoc eqb k l'
  end.

Definition attrs_of (o : pyobj) : list (string * pyobj) :=
  match o with
  | PyObj attrs _ _ => attrs
  | _ => []
  end.

Definition items_of (o : pyobj) : option (list (str * pyobj)) :=
  match o with
  | PyObj _ items _ => items
  | _ => None
  end.

(** [hasattr(o, name)] *)
Definition hasattr (o : pyobj) (name : string) : bool :=
  match assoc String.eqb name (attrs_of o) with
  | Some _ => true
  | None => false
  end.

(** [getattr(o, name)] *)
Definition getattr (o : pyobj) (name : string) : outcome pyobj :=
  match assoc String.eqb name (attrs_of o) with
  | Some v => Returns v
  | None => Raises (Exc (OtherException "AttributeError") (lit name) None)
  end.

(** [getattr(o, name, default)] *)
Definition getattr_or (o : pyobj) (name : string) (default : pyobj) : pyobj :=
  match assoc String.eqb name (attrs_of o) with
  | Some v => v
  | None => default
  end.

(** [isinstance(o, dict)] *)
Definition isinstance_dict (o : pyobj) : bool :=
  match items_of o with
  | Some _ => true
  | None => false
  end.

(** [key in o], for a [dict] *)
Definition dict_contains (o : pyobj) (key : str) : bool :=
  match items_of o with
  | Some items => match assoc str_eqb key items with Some _ => true | None => false end
  | None => false
  end.

(** [o.get(key, default)], for a [dict] *)
Definition dict_get (o : pyobj) (key : str) (default : pyobj) : pyobj :=
  match items_of o with
  | Some items => match assoc str_eqb key items with Some v => v | None => default end
  | None => default
  end.

(** [o[key]], for a [dict] *)
Definition dict_getitem (o : pyobj) (key : str) : outcome pyobj :=
  match items_of o with
  | Some items =>
      match assoc str_eqb key items with
      | Some v => Returns v
      | None => Raises (Exc (OtherException "KeyError") key None)
      end
  | None => Raises (Exc (OtherException "TypeError") (lit "not subscriptable") None)
  end.

(** [str(o)] *)
Definition str_ (o : pyobj) : outcome str :=
  match o with
  | PyNone => Returns (lit "None")
  | PyStr s => Returns s
  | PyObj _ _ text => text
  end.

(** [o == s] for a text [s]; objects other than texts compare unequal. *)
Definition eq_text (o : pyobj) (s : str) : bool :=
  match o with
  | PyStr t => str_eqb t s
  | _ => false
  end.

(** [o is not None] *)
Definition is_not_none (o : pyobj) : bool :=
  match o with
  | PyNone => false
  | _ => true
  end.

Section Extraction.
Context {rt : Runtime}.

(** [str(o).strip()] *)
Definition stripped_text (o : pyobj) : outcome str :=
  t <- str_ o ;; Returns (strip t).

(** Lines 120-129: the accepted payload. *)
Definition extract_accepted (data : pyobj) : outcome str :=
  try_except
    (if hasattr data "answer" then
       a <- getattr data "answer" ;;
       stripped_text a
     else if isinstance_dict data then
       t <- stripped_text (dict_get data (lit "answer") (PyStr (lit ""))) ;;
       if is_empty t then stripped_text data else Returns t
     else stripped_text data)
    (fun _ => stripped_text data).

(** Lines 132-141: direct extraction from the result itself. *)
Definition extract_direct (result : pyobj) : outcome str :=
  try_except
    (if hasattr result "answer" then
       a <- getattr result "answer" ;;
       stripped_text a
     else if (isinstance_dict result && dict_contains result (lit "answer"))%bool then
       a <- dict_getitem result (lit "answer") ;;
       stripped_text a
     else stripped_text result)
    (fun _ => Returns (lit "")).

(** Lines 114-141. *)
Definition extract_answer (result : pyobj) : outcome str :=
  let action := getattr_or result "action" PyNone in
  let data := getattr_or result "data" PyNone in
  if (eq_text action (lit "accept") && is_not_none data)%bool
  then extract_accepted data
  else extract_direct result.

(** The object whose text the accept path reads first: the [answer]
    attribute, else the [answer] entry of a mapping (the empty text when
    the entry is missing), else the payload itself. *)
Definition accepted_source (data : pyobj) : pyobj :=
  if hasattr data "answer" then getattr_or data "answer" PyNone
  else if isinstance_dict data then dict_get data (lit "answer") (PyStr (lit ""))
  else data.

(** The object whose text the direct path reads: the [answer] attribute,
    else the [answer] entry of a mapping that has one, else the result
    itself. *)
Definition direct_source (result : pyobj) : pyobj :=
  if hasattr result "answer" then getattr_or result "answer" PyNone
  else if (isinstance_dict result && dict_contains result (lit "answer"))%bool
       then dict_get result (lit "answer") PyNone
  else result.

(** Whether the response goes down the accept path. *)
Definition accepted (result : pyobj) : bool :=
  (eq_text (getattr_or result "action" PyNone) (lit "accept")
   && is_not_none (getattr_or result "data" PyNone))%bool.

End Extraction.

(** ** The elicitation channel *)

(** What the human side does with one request: answer after some time,
    fail after some time, or stay silent; each of these ends cancelled
    when it is cancelled while still pending.  [Resists] is a request
    that is still pending at any deadline and does not end cancelled when
    it is cancelled: it returns a response all the same, or raises while
    it cleans up.  Time is counted in milliseconds from the moment the
    request is issued. *)
Inductive behaviour : Type :=
| Responds (elapsed_ms : N) (result : pyobj)
| Fails (elapsed_ms : N) (e : exception)
| Silent
| Resists (ending : outcome pyobj).

(** The request context: how the client reacts to the [n]-th request of
    the session, given its message. *)
Record Context : Type := { client : nat -> str -> behaviour }.

(** The messages sent over the channel so far, oldest first. *)
Definition session := list str.

(** [ctx.elicit(message=..., schema=ClarifyAnswer)]: one request goes
    out.  The schema is the same for every call and is left out. *)
Definition elicit (ctx : Context) (message : str) (sent : session)
  : behaviour * session :=
  (client ctx (length sent) message, sent ++ [message]).

(** Whether the client settles the request, one way or the other, before
    the deadline. *)
Definition settled_within (timeout_ms : N) (b : behaviour) : bool :=
  match b with
  | Responds t _ => (t <? timeout_ms)%N
  | Fails t _ => (t <? timeout_ms)%N
  | Silent => false
  | Resists _ => false
  end.

(** Whether the request, cancelled while pending, ends cancelled. *)
Definition ends_cancelled (b : behaviour) : bool :=
  match b with
  | Resists _ => false
  | _ => true
  end.

(** [await asyncio.wait_for(aw, timeout)]: the outcome of the awaited
    request when it is settled before the deadline.  At the deadline the
    library cancels the pending request and waits for it to end: a
    request that ends cancelled gives [asyncio.TimeoutError]; one that
    returns or raises instead has that result returned or that exception
    re-raised. *)
Definition wait_for (b : behaviour) (timeout_ms : N) : outcome pyobj :=
  let expired := Raises (Exc AsyncioTimeoutError (lit "") None) in
  match b with
  | Responds t r => if (t <? timeout_ms)%N then Returns r else expired
  | Fails t e => if (t <? timeout_ms)%N then Raises e else expired
  | Silent => expired
  | Resists ending => ending
  end.

(** ** The tool *)

Record ClarificationResult : Type := {
  question : str;
  answer : str
}.

Section Tool.
Context {rt : Runtime}.

(** [isinstance(e, asyncio.TimeoutError)] *)
Definition is_asyncio_timeout (e : exception) : bool :=
  match exc_cls e with
  | AsyncioTimeoutError => true
  | TimeoutError => asyncio_timeout_is_builtin
  | _ => false
  end.

(** [timeout=60.0], in milliseconds. *)
Definition TIMEOUT_MS : N := 60000.

Definition TIMEOUT_MESSAGE : str :=
  lit "MCP error -32001: Clarification request timed out after 60 seconds".

(** Lines 103-112: the single awaited elicitation and its two handlers. *)
Definition await_elicitation (ctx : Context) (message : str) (sent : session)
  : outcome pyobj * session :=
  let (b, sent') := elicit ctx message sent in
  match wait_for b TIMEOUT_MS with
  | Returns result => (Returns result, sent')
  | Raises e =>
      if is_asyncio_timeout e
      then (Raises (Exc TimeoutError TIMEOUT_MESSAGE None), sent')
      else (text <- str_of_exception e ;;
            Raises (Exc RuntimeError (lit "Elicitation failed: " ++ text) (Some e)),
            sent')
  end.

(** [ask_clarification(ctx, prompt, choices)], threading the session. *)
Definition ask_clarification (ctx : Context) (prompt : str)
    (choices : option (list str)) (sent : session)
  : outcome ClarificationResult * session :=
  let message := display_prompt prompt choices in
  let (reply, sent') := await_elicitation ctx message sent in
  (result <- reply ;;
   extracted <- extract_answer result ;;
   resolved <- resolve_choice choices extracted ;;
   Returns {| question := prompt; answer := resolved |},
   sent').

(** What the single awaited request yields for this call. *)
Definition awaited (ctx : Context) (prompt : str) (choices : option (list str))
    (sent : session) : outcome pyobj :=
  wait_for (client ctx (length sent) (display_prompt prompt choices)) 60000.

End Tool.

(** ** A populated runtime

    The runtime of the examples: CPython's table of blanks in full, digits
    and lower-casing for ASCII and Latin-1, and the Arabic-Indic digits;
    the integer limit and the timeout class are those of CPython 3.11 and
    later. *)

Definition in_range (lo hi c : N) : bool := ((lo <=? c) && (c <=? hi))%N%bool.

(** The code points for which CPython's [Py_UNICODE_ISSPACE] holds. *)
Definition sample_isspace (c : char) : bool :=
  in_range 9 13 c || in_range 28 32 c || (c =? 133)%N || (c =? 160)%N
  || (c =? 5760)%N || in_range 8192 8202 c || in_range 8232 8233 c
  || (c =? 8239)%N || (c =? 8287)%N || (c =? 12288)%N.

(** ASCII digits, the superscripts of Latin-1 (digits without a decimal
    value) and the Arabic-Indic digits. *)
Definition sample_isdigit (c : char) : bool :=
  in_range 48 57 c || (c =? 178)%N || (c =? 179)%N || (c =? 185)%N
  || in_range 1632 1641 c.

Definition sample_decimal (c : char) : option Z :=
  if in_range 48 57 c then Some (Z.of_N c - 48)%Z
  else if in_range 1632 1641 c then Some (Z.of_N c - 1632)%Z
  else None.

(** Lower-casing of the ASCII and Latin-1 capitals. *)
Definition sample_lower_char (c : char) : char :=
  if in_range 65 90 c then (c + 32)%N
  else if (in_range 192 222 c && negb (c =? 215)%N)%bool then (c + 32)%N
  else c.

#[export] Instance sample_runtime : Runtime := {|
  isspace_char := sample_isspace;
  isdigit_char := sample_isdigit;
  decimal_value := sample_decimal;
  lower := map sample_lower_char;
  int_max_str_digits := 4300;
  asyncio_timeout_is_builtin := true
|}.

(** ** Sample responses and clients *)

Definition environments : list str := [lit "dev"; lit "staging"; lit "prod"].

(** [AcceptedElicitation(action="accept", data=ClarifyAnswer(answer=a))] *)
Definition sample_accept (a : str) : pyobj :=
  PyObj [("action"%string, PyStr (lit "accept"));
         ("data"%string,
          PyObj [("answer"%string, PyStr a)] None
                (Returns (lit "answer='" ++ a ++ lit "'")))]
        None
        (Returns (lit "action='accept' data=ClarifyAnswer(answer='" ++ a ++ lit "')")).

(** [DeclinedElicitation(action="decline")] *)
Definition sample_decline : pyobj :=
  PyObj [("action"%string, PyStr (lit "decline"))] None
        (Returns (lit "action='decline'")).

(** A client whose human types [a] after [elapsed_ms] milliseconds. *)
Definition answering (elapsed_ms : N) (a : str) : Context :=
  {| client := fun _ _ => Responds elapsed_ms (sample_accept a) |}.

(** A client that never reacts. *)
Definition unattended : Context := {| client := fun _ _ => Silent |}.

(** A client whose transport breaks after [elapsed_ms] milliseconds. *)
Definition broken (elapsed_ms : N) : Context :=
  {| client := fun _ _ =>
       Fails elapsed_ms (Exc (OtherException "ConnectionError") (lit "stream closed") None) |}.

(** An accepted response carrying [data]. *)
Definition accept_with (data : pyobj) : pyobj :=
  PyObj [("action"%string, PyStr (lit "accept")); ("data"%string, data)] None
        (Returns (lit "action='accept'")).

(** A payload without an [answer] whose [__str__] raises. *)
Definition unprintable : pyobj :=
  PyObj [] None (Raises (Exc ValueError (lit "cannot render") None)).

(** The mapping [{"answer": "  "}]. *)
Definition blank_entry : pyobj :=
  PyObj [] (Some [(lit "answer", PyStr (lit "  "))])
        (Returns (lit "{'answer': '  '}")).

(** ** Assumptions on a runtime

    What a runtime has to get right about ASCII for the numbers of the
    display prompt to be read back: the digits [0]-[9] are digits, carry
    their value and are not blanks.  Every Unicode database does. *)
Definition reads_ascii_digits (rt : Runtime) : Prop :=
  forall c, in_range 48 57 c = true ->
    isspace_char c = false /\
    isdigit_char c = true /\
    decimal_value c = Some (Z.of_N c - 48)%Z.

(** A text of [n] digits is within what [int] accepts. *)
Definition within_digit_limit (rt : Runtime) (n : nat) : Prop :=
  int_max_str_digits = 0 \/ n <= int_max_str_digits.

(** A client whose transport gives up on its own, raising
    [asyncio.TimeoutError], after [elapsed_ms] milliseconds. *)
Definition giving_up (elapsed_ms : N) : Context :=
  {| client := fun _ _ =>
       Fails elapsed_ms (Exc AsyncioTimeoutError (lit "transport timed out") None) |}.

(** A client that stays silent and, when the request is cancelled, fails
    while it closes the connection. *)
Definition resisting : Context :=
  {| client := fun _ _ =>
       Resists (Raises (Exc (OtherException "ConnectionError")
                            (lit "closed while cancelling") None)) |}.

(** A client whose transport breaks after [elapsed_ms] milliseconds with
    an exception whose [__str__] raises in turn. *)
Definition garbled (elapsed_ms : N) : Context :=
  {| client := fun _ _ =>
       Fails elapsed_ms
             (ExcNoText (OtherException "TransportError")
                        (Exc ValueError (lit "bad encoding") None) None) |}.

(** A client that declines every request. *)
Definition declining : Context :=
  {| client := fun _ _ => Responds 800 sample_decline |}.

(** * Properties *)

(** ** Text operations *)

Lemma str_eqb_eq (a b : str) : str_eqb a b = true <-> a = b.
Proof.
  unfold str_eqb. destruct (list_eq_dec N.eq_dec a b); split; congruence.
Qed.

Lemma str_eqb_refl (a : str) : str_eqb a a = true.
Proof. now apply str_eqb_eq. Qed.

Section TextFacts.
Context {rt : Runtime}.

Lemma drop_while_idem (p : char -> bool) (s : str) :
  drop_while p (drop_while p s) = drop_while p s.
Proof.
  induction s as [|c s IH]; simpl; [reflexivity|].
  destruct (p c) eqn:E; [exact IH|]. simpl. now rewrite E.
Qed.

Lemma drop_while_keep (p : char -> bool) (s : str) (c : char) :
  p c = false -> drop_while p (s ++ [c]) = drop_while p s ++ [c].
Proof.
  intros Hc. induction s as [|d s IH]; simpl.
  - now rewrite Hc.
  - destruct (p d); [exact IH|reflexivity].
Qed.

Lemma rstrip_idem (s : str) : rstrip (rstrip s) = rstrip s.
Proof.
  unfold rstrip. now rewrite rev_involutive, drop_while_idem.
Qed.

Lemma rstrip_cons (c : char) (s : str) :
  isspace_char c = false -> rstrip (c :: s) = c :: rstrip s.
Proof.
  intros Hc. unfold rstrip. simpl rev at 2.
  rewrite drop_while_keep by exact Hc.
  now rewrite rev_app_distr.
Qed.

(** The trimmed text is empty or starts with a non-blank character, after
    which only the tail is trimmed on the right. *)
Lemma strip_shape (s : str) :
  strip s = [] \/
  exists c r, lstrip s = c :: r /\ isspace_char c = false /\ strip s = c :: rstrip r.
Proof.
  unfold strip, lstrip.
  induction s as [|c s IH]; simpl; [now left|].
  destruct (isspace_char c) eqn:E; [exact IH|].
  right. exists c, s. repeat split; [exact E|]. now apply rstrip_cons.
Qed.

Lemma strip_idem (s : str) : strip (strip s) = strip s.
Proof.
  destruct (strip_shape s) as [H | (c & r & _ & Hc & H)]; rewrite H.
  - reflexivity.
  - unfold strip, lstrip. simpl. rewrite Hc.
    rewrite rstrip_cons by exact Hc. now rewrite rstrip_idem.
Qed.

Lemma strip_nil : strip [] = [].
Proof. reflexivity. Qed.

Lemma split_from_open (cur s : str) :
  cur <> [] ->
  hd_error (split_from cur s)
  = Some (rev cur ++ take_while (fun c => negb (isspace_char c)) s).
Proof.
  revert cur. induction s as [|c s IH]; intros cur Hcur.
  - simpl. destruct cur; [congruence|]. simpl. now rewrite app_nil_r.
  - simpl. destruct (isspace_char c) eqn:E; simpl.
    + destruct cur; [congruence|]. simpl. now rewrite app_nil_r.
    + rewrite IH by discriminate. simpl. now rewrite <- app_assoc.
Qed.

(** [s.split()[0]] is the first token; it does not exist exactly when
    [split] yields the empty list. *)
Lemma split_first (s : str) : hd_error (split s) = first_token s.
Proof.
  unfold split, first_token, lstrip.
  induction s as [|c s IH]; simpl; [reflexivity|].
  destruct (isspace_char c) eqn:E; simpl.
  - exact IH.
  - rewrite E. simpl. now rewrite split_from_open by discriminate.
Qed.

Lemma list_index_zero {A} (l : list A) :
  list_index l 0 = match hd_error l with
                   | Some a => Returns a
                   | None => Raises (Exc IndexError (lit "list index out of range") None)
                   end.
Proof. destruct l; reflexivity. Qed.

Lemma list_index_in_range {A} (l : list A) (i : Z) :
  (1 <= i <= Z.of_nat (length l))%Z ->
  exists a, nth_error l (Z.to_nat (i - 1)) = Some a /\ list_index l (i - 1) = Returns a.
Proof.
  intros Hi. unfold list_index.
  destruct (i - 1 <? 0)%Z eqn:E1; [apply Z.ltb_lt in E1; lia|].
  destruct (0 <=? i - 1)%Z eqn:E2; [|apply Z.leb_gt in E2; lia].
  destruct (i - 1 <? Z.of_nat (length l))%Z eqn:E3; [|apply Z.ltb_ge in E3; lia].
  simpl. destruct (nth_error l (Z.to_nat (i - 1))) eqn:E.
  - now exists a.
  - apply nth_error_None in E. lia.
Qed.

Lemma int_nonempty (s : str) (z : Z) : int_ s = Returns z -> s <> [].
Proof. intros H ->. discriminate H. Qed.

End TextFacts.

(** ** Choice resolution *)

Section ResolutionFacts.
Context {rt : Runtime}.

(** An answer without a token names no index. *)
Lemma no_token_no_index (n : nat) (raw : str) (i : Z) :
  first_token raw = None -> ~ valid_index n raw i.
Proof. intros Hnone (token & Htok & _). congruence. Qed.

Lemma select_by_number_hit (choices : list str) (raw : str) (i : Z) :
  valid_index (length choices) raw i ->
  exists c, nth_error choices (Z.to_nat (i - 1)) = Some c /\
            select_by_number choices raw = Returns (Some c).
Proof.
  intros (token & Htok & Hdig & Hint & Hi).
  destruct (list_index_in_range choices Hi) as (c & Hnth & Hidx).
  exists c. split; [exact Hnth|].
  unfold select_by_number.
  rewrite list_index_zero, split_first, Htok. simpl.
  unfold isdigit. rewrite Hdig.
  destruct (rstrip_chars TOKEN_TAIL token) eqn:Et;
    [now apply int_nonempty in Hint|].
  simpl. rewrite Hint. simpl.
  destruct Hi as [H1 H2].
  apply Z.leb_le in H1. apply Z.leb_le in H2. rewrite H1, H2. simpl.
  now rewrite Hidx.
Qed.

Lemma select_by_number_miss (choices : list str) (raw : str) :
  (forall i, ~ valid_index (length choices) raw i) ->
  try_except (select_by_number choices raw) swallow = Returns None.
Proof.
  intros Hno. unfold select_by_number.
  rewrite list_index_zero, split_first.
  destruct (first_token raw) as [token|] eqn:Htok; [|reflexivity]. simpl.
  destruct (isdigit (rstrip_chars TOKEN_TAIL token)) eqn:Hdig; [|reflexivity].
  destruct (int_ (rstrip_chars TOKEN_TAIL token)) as [idx|e] eqn:Hint; [|reflexivity].
  simpl.
  destruct ((1 <=? idx)%Z && (idx <=? Z.of_nat (length choices))%Z) eqn:Hr;
    [|reflexivity].
  exfalso. apply (Hno idx). exists token.
  apply andb_prop in Hr. destruct Hr as [H1 H2].
  apply Z.leb_le in H1. apply Z.leb_le in H2.
  unfold isdigit in Hdig. apply andb_prop in Hdig.
  repeat split; try assumption. apply Hdig.
Qed.

Lemma select_by_text_first (before after : list str) (c raw : str) :
  (forall c', In c' before -> lower raw <> lower c') ->
  lower raw = lower c ->
  select_by_text (before ++ c :: after) raw = Some c.
Proof.
  intros Hbefore Hc. induction before as [|b before IH]; simpl.
  - now rewrite Hc, str_eqb_refl.
  - destruct (str_eqb (lower raw) (lower b)) eqn:E.
    + apply str_eqb_eq in E. exfalso. apply (Hbefore b); [now left|exact E].
    + apply IH. intros c' Hin. apply Hbefore. now right.
Qed.

Lemma select_by_text_none (choices : list str) (raw : str) :
  (forall c, In c choices -> lower raw <> lower c) ->
  select_by_text choices raw = None.
Proof.
  induction choices as [|b choices IH]; intros Hno; simpl; [reflexivity|].
  destruct (str_eqb (lower raw) (lower b)) eqn:E.
  - apply str_eqb_eq in E. exfalso. apply (Hno b); [now left|exact E].
  - apply IH. intros c Hin. apply Hno. now right.
Qed.

(** With a non-empty list the resolution is decided by the two selectors. *)
Lemma resolve_choice_unfold (choices : list str) (answer : str) :
  choices <> [] ->
  resolve_choice (Some choices) answer =
    (selected <- try_except (select_by_number choices (strip answer)) swallow ;;
     match selected with
     | Some c => Returns c
     | None => match select_by_text choices (strip answer) with
               | Some c => Returns c
               | None => Returns answer
               end
     end).
Proof.
  intros Hne. unfold resolve_choice. simpl provided.
  destruct choices as [|c0 cs]; [congruence|].
  destruct (try_except (select_by_number (c0 :: cs) (strip answer)) swallow)
    as [[c|]|e]; reflexivity.
Qed.

Lemma resolve_by_number (choices : list str) (answer : str) (i : Z) :
  choices <> [] ->
  valid_index (length choices) (strip answer) i ->
  exists c, nth_error choices (Z.to_nat (i - 1)) = Some c /\
            resolve_choice (Some choices) answer = Returns c.
Proof.
  intros Hne Hi.
  destruct (select_by_number_hit choices Hi) as (c & Hnth & Hsel).
  exists c. split; [exact Hnth|].
  rewrite resolve_choice_unfold by exact Hne. now rewrite Hsel.
Qed.

Lemma resolve_by_text (choices : list str) (answer : str) :
  choices <> [] ->
  (forall i, ~ valid_index (length choices) (strip answer) i) ->
  resolve_choice (Some choices) answer =
    match select_by_text choices (strip answer) with
    | Some c => Returns c
    | None => Returns answer
    end.
Proof.
  intros Hne Hno.
  rewrite resolve_choice_unfold by exact Hne.
  now rewrite select_by_number_miss by exact Hno.
Qed.

Lemma resolve_choice_returns (choices : option (list str)) (answer : str) :
  exists r, resolve_choice choices answer = Returns r.
Proof.
  unfold resolve_choice.
  destruct (provided choices) as [|c0 cs]; [now exists answer|].
  destruct (try_except _ _) as [[c|]|e] eqn:E; cbn [bind_outcome].
  - now exists c.
  - destruct (select_by_text (c0 :: cs) (strip answer)) as [c|];
      eexists; reflexivity.
  - exfalso. destruct (select_by_number (c0 :: cs) (strip answer)); discriminate E.
Qed.

End ResolutionFacts.

(** ** Answer extraction *)

Section ExtractionFacts.
Context {rt : Runtime}.

Lemma getattr_present (o : pyobj) (name : string) :
  hasattr o name = true -> getattr o name = Returns (getattr_or o name PyNone).
Proof.
  unfold hasattr, getattr, getattr_or.
  destruct (assoc String.eqb name (attrs_of o)); [reflexivity|discriminate].
Qed.

Lemma dict_getitem_present (o : pyobj) (key : str) :
  dict_contains o key = true -> dict_getitem o key = Returns (dict_get o key PyNone).
Proof.
  unfold dict_contains, dict_getitem, dict_get.
  destruct (items_of o) as [items|]; [|discriminate].
  destruct (assoc str_eqb key items); [reflexivity|discriminate].
Qed.

Lemma extract_direct_spec (result : pyobj) :
  extract_direct result =
    match str_ (direct_source result) with
    | Returns t => Returns (strip t)
    | Raises _ => Returns []
    end.
Proof.
  unfold extract_direct, direct_source, stripped_text.
  destruct (hasattr result "answer") eqn:Ha.
  - rewrite (getattr_present _ _ Ha). simpl.
    destruct (str_ (getattr_or result "answer" PyNone)); reflexivity.
  - destruct (isinstance_dict result && dict_contains result (lit "answer"))%bool eqn:Hd.
    + apply andb_prop in Hd. destruct Hd as [_ Hd].
      rewrite (dict_getitem_present _ _ Hd). simpl.
      destruct (str_ (dict_get result (lit "answer") PyNone)); reflexivity.
    + destruct (str_ result); reflexivity.
Qed.

(** Retrying the failed conversion in the handler changes nothing. *)
Lemma try_except_same {A} (m : outcome A) : try_except m (fun _ => m) = m.
Proof. destruct m; reflexivity. Qed.

Lemma extract_accepted_spec (data : pyobj) :
  extract_accepted data =
    match str_ (accepted_source data) with
    | Returns t =>
        if (negb (hasattr data "answer") && isinstance_dict data
            && is_empty (strip t))%bool
        then stripped_text data
        else Returns (strip t)
    | Raises _ => stripped_text data
    end.
Proof.
  unfold extract_accepted, accepted_source.
  destruct (hasattr data "answer") eqn:Ha.
  - rewrite (getattr_present _ _ Ha). simpl. unfold stripped_text at 1.
    destruct (str_ (getattr_or data "answer" PyNone)); reflexivity.
  - destruct (isinstance_dict data) eqn:Hd; simpl.
    + unfold stripped_text at 1.
      destruct (str_ (dict_get data (lit "answer") (PyStr (lit "")))) as [t|e];
        simpl; [|reflexivity].
      destruct (is_empty (strip t)); [|reflexivity].
      apply try_except_same.
    + rewrite try_except_same. unfold stripped_text.
      destruct (str_ data); reflexivity.
Qed.

Lemma extract_answer_paths (result : pyobj) :
  extract_answer result =
    if accepted result
    then extract_accepted (getattr_or result "data" PyNone)
    else extract_direct result.
Proof. reflexivity. Qed.

Lemma stripped_text_trimmed (o : pyobj) (a : str) :
  stripped_text o = Returns a -> strip a = a.
Proof.
  unfold stripped_text. destruct (str_ o) as [t|e]; simpl; [|discriminate].
  intros H. injection H as <-. apply strip_idem.
Qed.

(** Whatever the extraction returns is already trimmed. *)
Lemma extract_answer_trimmed (result : pyobj) (a : str) :
  extract_answer result = Returns a -> strip a = a.
Proof.
  rewrite extract_answer_paths.
  destruct (accepted result).
  - rewrite extract_accepted_spec.
    destruct (str_ (accepted_source _)) as [t|e].
    + destruct (_ && is_empty (strip t))%bool.
      * apply stripped_text_trimmed.
      * intros H. injection H as <-. apply strip_idem.
    + apply stripped_text_trimmed.
  - rewrite extract_direct_spec.
    destruct (str_ (direct_source result)) as [t|e]; intros H; injection H as <-.
    + apply strip_idem.
    + reflexivity.
Qed.

End ExtractionFacts.

(** ** The tool as a whole *)

Section ToolFacts.
Context {rt : Runtime}.

Lemma ask_clarification_sends_once (ctx : Context) (prompt : str)
    (choices : option (list str)) (sent : session) :
  snd (ask_clarification ctx prompt choices sent)
  = sent ++ [display_prompt prompt choices].
Proof.
  unfold ask_clarification, await_elicitation, elicit.
  destruct (wait_for _ _) as [r|e]; [reflexivity|].
  destruct (is_asyncio_timeout e); reflexivity.
Qed.

Lemma ask_clarification_answered (ctx : Context) (prompt : str)
    (choices : option (list str)) (sent : session) (result : pyobj) :
  awaited ctx prompt choices sent = Returns result ->
  ask_clarification ctx prompt choices sent =
    (extracted <- extract_answer result ;;
     resolved <- resolve_choice choices extracted ;;
     Returns {| question := prompt; answer := resolved |},
     sent ++ [display_prompt prompt choices]).
Proof.
  unfold awaited, ask_clarification, await_elicitation, elicit, TIMEOUT_MS.
  intros ->. reflexivity.
Qed.

Lemma ask_clarification_failed (ctx : Context) (prompt : str)
    (choices : option (list str)) (sent : session) (e : exception) :
  awaited ctx prompt choices sent = Raises e ->
  ask_clarification ctx prompt choices sent =
    (if is_asyncio_timeout e
     then Raises (Exc TimeoutError TIMEOUT_MESSAGE None)
     else (text <- str_of_exception e ;;
           Raises (Exc RuntimeError (lit "Elicitation failed: " ++ text) (Some e))),
     sent ++ [display_prompt prompt choices]).
Proof.
  unfold awaited, ask_clarification, await_elicitation, elicit, TIMEOUT_MS.
  intros ->. destruct (is_asyncio_timeout e); [reflexivity|].
  destruct (str_of_exception e); reflexivity.
Qed.

Lemma ask_clarification_failed_raises (ctx : Context) (prompt : str)
    (choices : option (list str)) (sent : session) (e : exception) :
  awaited ctx prompt choices sent = Raises e ->
  exists e', fst (ask_clarification ctx prompt choices sent) = Raises e'.
Proof.
  intros Haw. rewrite (ask_clarification_failed _ _ _ _ Haw). cbn [fst].
  destruct (is_asyncio_timeout e); [eexists; reflexivity|].
  destruct (str_of_exception e); eexists; reflexivity.
Qed.

End ToolFacts.

(** ** Claims on choice resolution *)

(** C1.  With a non-empty list of choices, when the first
    whitespace-delimited token of the trimmed answer, stripped of trailing
    [)], [.], [:], []], is all digits and parses to an index [i] between 1
    and the number of choices, the tool returns the text of the [i]-th
    choice (counted from one) as the answer. *)
Theorem numeric_answer_returns_choice {rt : Runtime}
    (ctx : Context) (prompt : str) (choices : list str) (sent : session)
    (result : pyobj) (extracted : str) (i : Z) :
  choices <> [] ->
  awaited ctx prompt (Some choices) sent = Returns result ->
  extract_answer result = Returns extracted ->
  valid_index (length choices) (strip extracted) i ->
  exists c,
    nth_error choices (Z.to_nat (i - 1)) = Some c /\
    fst (ask_clarification ctx prompt (Some choices) sent)
    = Returns {| question := prompt; answer := c |}.
Proof.
  intros Hne Haw Hex Hi.
  destruct (resolve_by_number extracted Hne Hi) as (c & Hnth & Hres).
  exists c. split; [exact Hnth|].
  rewrite (ask_clarification_answered _ _ _ _ Haw), Hex. simpl.
  now rewrite Hres.
Qed.

(** Establishes [valid_index] at a concrete answer whose token is given. *)
Ltac index_of_token tok :=
  exists tok; repeat split; try reflexivity; vm_compute; discriminate.

Lemma numeric_answer_returns_choice_witness :
  (valid_index 3 (strip (lit "2")) 2 /\
   fst (ask_clarification (answering 1500 (lit "2")) (lit "Deploy where?")
          (Some environments) [])
   = Returns {| question := lit "Deploy where?"; answer := lit "staging" |})
  /\
  (valid_index 3 (strip (lit "2)")) 2 /\
   fst (ask_clarification (answering 1500 (lit "2)")) (lit "Deploy where?")
          (Some environments) [])
   = Returns {| question := lit "Deploy where?"; answer := lit "staging" |})
  /\
  (valid_index 3 (strip (lit "2.")) 2 /\
   fst (ask_clarification (answering 1500 (lit "2.")) (lit "Deploy where?")
          (Some environments) [])
   = Returns {| question := lit "Deploy where?"; answer := lit "staging" |}).
Proof.
  assert (Hne : environments <> []) by discriminate.
  assert (H1 : valid_index 3 (strip (lit "2")) 2) by index_of_token (lit "2").
  assert (H2 : valid_index 3 (strip (lit "2)")) 2) by index_of_token (lit "2)").
  assert (H3 : valid_index 3 (strip (lit "2.")) 2) by index_of_token (lit "2.").
  split; [|split]; (split; [assumption|]).
  - destruct (@numeric_answer_returns_choice sample_runtime
                (answering 1500 (lit "2")) (lit "Deploy where?") environments []
                (sample_accept (lit "2")) (lit "2") 2 Hne eq_refl eq_refl H1)
      as (c & Hc & H).
    injection Hc as <-. exact H.
  - destruct (@numeric_answer_returns_choice sample_runtime
                (answering 1500 (lit "2)")) (lit "Deploy where?") environments []
                (sample_accept (lit "2)")) (lit "2)") 2 Hne eq_refl eq_refl H2)
      as (c & Hc & H).
    injection Hc as <-. exact H.
  - destruct (@numeric_answer_returns_choice sample_runtime
                (answering 1500 (lit "2.")) (lit "Deploy where?") environments []
                (sample_accept (lit "2.")) (lit "2.") 2 Hne eq_refl eq_refl H3)
      as (c & Hc & H).
    injection Hc as <-. exact H.
Defined.

(** Refutes [valid_index] at a concrete answer: the token is not all
    digits, does not parse, or parses out of range. *)
Ltac no_index :=
  let i := fresh "i" in
  let tok := fresh "tok" in
  let Htok := fresh "Htok" in
  let Hdig := fresh "Hdig" in
  let Hint := fresh "Hint" in
  let Hrng := fresh "Hrng" in
  intros i (tok & Htok & Hdig & Hint & Hrng);
  vm_compute in Htok;
  first [ discriminate Htok
        | injection Htok as <-;
          first [ vm_compute in Hdig; discriminate Hdig
                | vm_compute in Hint; first [ discriminate Hint
                                            | injection Hint as <-; simpl in Hrng; lia ] ] ].

(** Refutes every case-insensitive match against a concrete list. *)
Ltac no_text_match :=
  let c := fresh "c" in
  let Hin := fresh "Hin" in
  intros c Hin; simpl in Hin;
  repeat (destruct Hin as [<- | Hin]; [vm_compute; discriminate|]);
  contradiction.

(** C2.  With a non-empty list of choices and an answer that names no
    valid index, when some choice equals the whole trimmed answer up to
    case, the tool returns the first such choice in list order, in the
    list's own spelling. *)
Theorem text_answer_returns_first_match {rt : Runtime}
    (ctx : Context) (prompt : str) (before : list str) (c : str)
    (after : list str) (sent : session) (result : pyobj) (extracted : str) :
  awaited ctx prompt (Some (before ++ c :: after)) sent = Returns result ->
  extract_answer result = Returns extracted ->
  (forall i, ~ valid_index (length (before ++ c :: after)) (strip extracted) i) ->
  (forall c', In c' before -> lower (strip extracted) <> lower c') ->
  lower (strip extracted) = lower c ->
  fst (ask_clarification ctx prompt (Some (before ++ c :: after)) sent)
  = Returns {| question := prompt; answer := c |}.
Proof.
  intros Haw Hex Hno Hbefore Hc.
  assert (Hne : before ++ c :: after <> []) by (destruct before; discriminate).
  rewrite (ask_clarification_answered _ _ _ _ Haw), Hex. simpl.
  rewrite (resolve_by_text extracted Hne Hno).
  now rewrite (select_by_text_first before after c (strip extracted) Hbefore Hc).
Qed.

Lemma text_answer_returns_first_match_witness :
  (forall i, ~ valid_index 3 (strip (lit "PROD")) i) /\
  (forall c', In c' [lit "dev"; lit "staging"] ->
              lower (strip (lit "PROD")) <> lower c') /\
  lower (strip (lit "PROD")) = lower (lit "prod") /\
  fst (ask_clarification (answering 1500 (lit "PROD")) (lit "Deploy where?")
         (Some environments) [])
  = Returns {| question := lit "Deploy where?"; answer := lit "prod" |}.
Proof.
  assert (H1 : forall i, ~ valid_index 3 (strip (lit "PROD")) i) by no_index.
  assert (H2 : forall c', In c' [lit "dev"; lit "staging"] ->
                          lower (strip (lit "PROD")) <> lower c') by no_text_match.
  split; [exact H1|]. split; [exact H2|]. split; [reflexivity|].
  exact (@text_answer_returns_first_match sample_runtime
           (answering 1500 (lit "PROD")) (lit "Deploy where?")
           [lit "dev"; lit "staging"] (lit "prod") [] []
           (sample_accept (lit "PROD")) (lit "PROD") eq_refl eq_refl H1 H2 eq_refl).
Defined.

(** C3.  With a non-empty list of choices, an answer that names no valid
    index and equals no choice up to case is returned as it was extracted,
    which is its trimmed text; resolving never raises, and for the empty
    answer the failed lookup of a first token ([IndexError]) is absorbed. *)
Theorem unmatched_answer_is_returned_unchanged {rt : Runtime}
    (ctx : Context) (prompt : str) (choices : list str) (sent : session)
    (result : pyobj) (extracted : str) :
  choices <> [] ->
  awaited ctx prompt (Some choices) sent = Returns result ->
  extract_answer result = Returns extracted ->
  (forall i, ~ valid_index (length choices) (strip extracted) i) ->
  (forall c, In c choices -> lower (strip extracted) <> lower c) ->
  fst (ask_clarification ctx prompt (Some choices) sent)
  = Returns {| question := prompt; answer := strip extracted |}
  /\ strip extracted = extracted
  /\ (extracted = [] ->
      select_by_number choices (strip extracted)
      = Raises (Exc IndexError (lit "list index out of range") None))
  /\ (forall a, exists r, resolve_choice (Some choices) a = Returns r).
Proof.
  intros Hne Haw Hex Hno Htext.
  pose proof (extract_answer_trimmed _ Hex) as Htrim.
  repeat split.
  - rewrite (ask_clarification_answered _ _ _ _ Haw), Hex. simpl.
    rewrite (resolve_by_text extracted Hne Hno).
    rewrite (select_by_text_none choices (strip extracted) Htext).
    simpl. now rewrite Htrim.
  - exact Htrim.
  - intros ->. reflexivity.
  - intros a. apply resolve_choice_returns.
Qed.

Lemma unmatched_answer_is_returned_unchanged_witness :
  (forall i, ~ valid_index 3 (strip (lit "maybe later")) i) /\
  (forall c, In c environments -> lower (strip (lit "maybe later")) <> lower c) /\
  fst (ask_clarification (answering 1500 (lit "maybe later")) (lit "Deploy where?")
         (Some environments) [])
  = Returns {| question := lit "Deploy where?"; answer := lit "maybe later" |}.
Proof.
  assert (Hne : environments <> []) by discriminate.
  assert (H1 : forall i, ~ valid_index 3 (strip (lit "maybe later")) i) by no_index.
  assert (H2 : forall c, In c environments ->
                         lower (strip (lit "maybe later")) <> lower c)
    by no_text_match.
  split; [exact H1|]. split; [exact H2|].
  exact (proj1 (@unmatched_answer_is_returned_unchanged sample_runtime
                  (answering 1500 (lit "maybe later")) (lit "Deploy where?")
                  environments [] (sample_accept (lit "maybe later"))
                  (lit "maybe later") Hne eq_refl eq_refl H1 H2)).
Defined.

(** The empty answer: no token, no index, and the empty text comes back. *)
Example empty_answer_is_returned_unresolved :
  (forall i, ~ valid_index 3 (strip (lit "")) i) /\
  resolve_choice (Some environments) (lit "") = Returns (lit "").
Proof. split; [no_index|reflexivity]. Qed.

(** An index beyond the list selects nothing. *)
Example out_of_range_answer_is_returned_unchanged :
  (forall i, ~ valid_index 3 (strip (lit "5")) i) /\
  resolve_choice (Some environments) (lit "5") = Returns (lit "5").
Proof. split; [no_index|reflexivity]. Qed.

(** A digit without a decimal value: [isdigit] accepts the superscript
    two, [int] raises [ValueError], the handler absorbs it. *)
Example superscript_digit_selects_nothing :
  isdigit [178%N] = true /\
  int_ [178%N]
  = Raises (Exc ValueError (lit "invalid literal for int() with base 10") None) /\
  resolve_choice (Some environments) [178%N] = Returns [178%N].
Proof. repeat split. Qed.

(** C10.  A valid index wins over a textual match: when the answer names
    the index [i], the result is the [i]-th choice even if the whole
    trimmed answer equals some other choice [c'] up to case; a result that
    is not the [i]-th choice therefore never comes from an answer naming
    [i]. *)
Theorem numeric_match_precedes_text_match {rt : Runtime}
    (choices : list str) (answer : str) (i : Z) (c' : str) :
  choices <> [] ->
  valid_index (length choices) (strip answer) i ->
  In c' choices ->
  lower (strip answer) = lower c' ->
  exists c,
    nth_error choices (Z.to_nat (i - 1)) = Some c /\
    resolve_choice (Some choices) answer = Returns c /\
    (c' <> c -> resolve_choice (Some choices) answer <> Returns c').
Proof.
  intros Hne Hi _ _.
  destruct (resolve_by_number answer Hne Hi) as (c & Hnth & Hres).
  exists c. repeat split; try assumption.
  intros Hdiff. rewrite Hres. congruence.
Qed.

Lemma numeric_match_precedes_text_match_witness :
  valid_index 3 (strip (lit "3")) 3 /\
  In (lit "3") [lit "3"; lit "b"; lit "c"] /\
  lower (strip (lit "3")) = lower (lit "3") /\
  resolve_choice (Some [lit "3"; lit "b"; lit "c"]) (lit "3") = Returns (lit "c") /\
  resolve_choice (Some [lit "3"; lit "b"; lit "c"]) (lit "3") <> Returns (lit "3").
Proof.
  assert (Hne : [lit "3"; lit "b"; lit "c"] <> []) by discriminate.
  assert (H1 : valid_index 3 (strip (lit "3")) 3) by index_of_token (lit "3").
  assert (H2 : In (lit "3") [lit "3"; lit "b"; lit "c"]) by (now left).
  split; [exact H1|]. split; [exact H2|]. split; [reflexivity|].
  destruct (@numeric_match_precedes_text_match sample_runtime
              [lit "3"; lit "b"; lit "c"] (lit "3") 3 (lit "3") Hne H1 H2 eq_refl)
    as (c & Hc & Hres & Hother).
  injection Hc as <-. split; [exact Hres|].
  apply Hother. discriminate.
Defined.

(** ** Claims on the request *)

(** C4, as stated, fails: a request that is still pending after 60
    seconds is cancelled, and when it raises while being cancelled the
    awaited call re-raises that exception, which the second handler wraps
    in a [RuntimeError]. *)
Lemma unanswered_request_can_fail_otherwise :
  settled_within 60000
    (client resisting (length (@nil str)) (display_prompt (lit "Proceed?") None))
  = false
  /\ fst (ask_clarification resisting (lit "Proceed?") None [])
     = Raises (Exc RuntimeError (lit "Elicitation failed: closed while cancelling")
                 (Some (Exc (OtherException "ConnectionError")
                            (lit "closed while cancelling") None)))
  /\ ~ (forall (rt : Runtime) (ctx : Context) (prompt : str)
               (choices : option (list str)) (sent : session),
          settled_within 60000
            (client ctx (length sent) (display_prompt prompt choices)) = false ->
          fst (ask_clarification ctx prompt choices sent)
          = Raises (Exc TimeoutError
                      (lit "MCP error -32001: Clarification request timed out after 60 seconds")
                      None)).
Proof.
  split; [reflexivity|]. split; [reflexivity|].
  intros Hclaim.
  specialize (Hclaim sample_runtime resisting (lit "Proceed?") None [] eq_refl).
  discriminate Hclaim.
Qed.

(** C4, amended.  When the request is not settled within 60 seconds and
    ends cancelled once the deadline cancels it, the call fails with a
    [TimeoutError] whose message names the 60-second clarification
    timeout, not with a [RuntimeError], and exactly one request has gone
    out. *)
Theorem unanswered_request_times_out {rt : Runtime}
    (ctx : Context) (prompt : str) (choices : option (list str)) (sent : session) :
  settled_within 60000 (client ctx (length sent) (display_prompt prompt choices))
  = false ->
  ends_cancelled (client ctx (length sent) (display_prompt prompt choices))
  = true ->
  ask_clarification ctx prompt choices sent
  = (Raises (Exc TimeoutError
               (lit "MCP error -32001: Clarification request timed out after 60 seconds")
               None),
     sent ++ [display_prompt prompt choices])
  /\ (forall text cause,
        fst (ask_clarification ctx prompt choices sent)
        <> Raises (Exc RuntimeError text cause))
  /\ length (snd (ask_clarification ctx prompt choices sent)) = S (length sent).
Proof.
  intros Hlate Hcancel.
  assert (Haw : awaited ctx prompt choices sent
                = Raises (Exc AsyncioTimeoutError (lit "") None)).
  { unfold awaited, wait_for.
    destruct (client ctx (length sent) (display_prompt prompt choices));
      simpl in Hlate, Hcancel; try rewrite Hlate; try reflexivity.
    discriminate Hcancel. }
  rewrite (ask_clarification_failed _ _ _ _ Haw). simpl.
  repeat split.
  - discriminate.
  - rewrite length_app. simpl. lia.
Qed.

Lemma unanswered_request_times_out_witness :
  settled_within 60000
    (client unattended (length (@nil str)) (display_prompt (lit "Proceed?") None))
  = false /\
  ends_cancelled
    (client unattended (length (@nil str)) (display_prompt (lit "Proceed?") None))
  = true /\
  fst (ask_clarification unattended (lit "Proceed?") None [])
  = Raises (Exc TimeoutError
              (lit "MCP error -32001: Clarification request timed out after 60 seconds")
              None).
Proof.
  split; [reflexivity|]. split; [reflexivity|].
  exact (f_equal fst
           (proj1 (@unanswered_request_times_out sample_runtime unattended
                     (lit "Proceed?") None [] eq_refl eq_refl))).
Defined.

(** An answer that arrives a millisecond late, or on the deadline itself,
    is a timeout as well. *)
Example late_answer_times_out :
  fst (ask_clarification (answering 60001 (lit "yes")) (lit "Proceed?") None [])
  = Raises (Exc TimeoutError TIMEOUT_MESSAGE None).
Proof. reflexivity. Qed.

Example answer_on_the_deadline_times_out :
  fst (ask_clarification (answering 60000 (lit "yes")) (lit "Proceed?") None [])
  = Raises (Exc TimeoutError TIMEOUT_MESSAGE None)
  /\ fst (ask_clarification (answering 59999 (lit "yes")) (lit "Proceed?") None [])
     = Returns {| question := lit "Proceed?"; answer := lit "yes" |}.
Proof. split; reflexivity. Qed.

(** C7, as stated, fails: the handler takes [str(e)] of the failure
    unguarded, so a failure whose [__str__] raises escapes as the
    exception of that conversion, not as a [RuntimeError]. *)
Lemma channel_failure_can_escape_unwrapped :
  awaited (garbled 200) (lit "Proceed?") None []
  = Raises (ExcNoText (OtherException "TransportError")
                      (Exc ValueError (lit "bad encoding") None) None)
  /\ fst (ask_clarification (garbled 200) (lit "Proceed?") None [])
     = Raises (Exc ValueError (lit "bad encoding") None)
  /\ ~ (forall (rt : Runtime) (ctx : Context) (prompt : str)
               (choices : option (list str)) (sent : session) (e : exception),
          awaited ctx prompt choices sent = Raises e ->
          is_asyncio_timeout e = false ->
          exists text,
            fst (ask_clarification ctx prompt choices sent)
            = Raises (Exc RuntimeError text (Some e))).
Proof.
  split; [reflexivity|]. split; [reflexivity|].
  intros Hclaim.
  destruct (Hclaim sample_runtime (garbled 200) (lit "Proceed?") None []
              (ExcNoText (OtherException "TransportError")
                         (Exc ValueError (lit "bad encoding") None) None)
              eq_refl eq_refl) as [text Htext].
  discriminate Htext.
Qed.

(** C7, amended.  A failure of the awaited elicitation other than a
    timeout whose message [str(e)] can be taken makes the call fail with a
    [RuntimeError] whose message wraps that message and whose cause is the
    original exception. *)
Theorem channel_failure_is_wrapped {rt : Runtime}
    (ctx : Context) (prompt : str) (choices : option (list str)) (sent : session)
    (e : exception) (text : str) :
  awaited ctx prompt choices sent = Raises e ->
  is_asyncio_timeout e = false ->
  str_of_exception e = Returns text ->
  ask_clarification ctx prompt choices sent
  = (Raises (Exc RuntimeError (lit "Elicitation failed: " ++ text) (Some e)),
     sent ++ [display_prompt prompt choices]).
Proof.
  intros Haw Hkind Htext.
  rewrite (ask_clarification_failed _ _ _ _ Haw). now rewrite Hkind, Htext.
Qed.

Lemma channel_failure_is_wrapped_witness :
  fst (ask_clarification (broken 200) (lit "Proceed?") None [])
  = Raises (Exc RuntimeError (lit "Elicitation failed: stream closed")
              (Some (Exc (OtherException "ConnectionError") (lit "stream closed") None))).
Proof.
  exact (f_equal fst
           (@channel_failure_is_wrapped sample_runtime (broken 200) (lit "Proceed?")
              None [] (Exc (OtherException "ConnectionError") (lit "stream closed") None)
              (lit "stream closed") eq_refl eq_refl eq_refl)).
Defined.

(** ** Claims on the display prompt *)

Lemma option_lines_numbered (k : nat) (choices : list str) :
  map option_line (enumerate_from k choices) = numbered_from (S k) choices.
Proof.
  revert k. induction choices as [|c cs IH]; intros k; simpl; [reflexivity|].
  rewrite IH. unfold option_line. simpl. now rewrite Nat.add_1_r.
Qed.

Lemma join_cons (sep p : str) (ps : list str) :
  ps <> [] -> join sep (p :: ps) = p ++ sep ++ join sep ps.
Proof. destruct ps; [congruence|reflexivity]. Qed.

Lemma join_snoc (sep : str) (ps : list str) (q : str) :
  ps <> [] -> join sep (ps ++ [q]) = join sep ps ++ sep ++ q.
Proof.
  induction ps as [|p ps IH]; intros Hne; [congruence|].
  destruct ps as [|p' ps].
  - reflexivity.
  - change ((p :: p' :: ps) ++ [q]) with (p :: ((p' :: ps) ++ [q])).
    rewrite join_cons by discriminate.
    rewrite IH by discriminate.
    rewrite (join_cons sep p (ps := p' :: ps)) by discriminate.
    now rewrite <- !app_assoc.
Qed.

(** C5.  With a non-empty list of choices the display prompt is the
    prompt, a blank line, the header [Options:], one line
    [<position>) <choice>] per choice in input order, and the line
    [(Type the value or its number)]; without choices, or with an empty
    list, it is the prompt itself. *)
Theorem display_prompt_layout (prompt : str) (choices : option (list str)) :
  display_prompt prompt choices =
    match choices with
    | Some (c :: cs) => join NL (display_lines prompt (c :: cs))
    | Some [] => prompt
    | None => prompt
    end.
Proof.
  destruct choices as [[|c cs]|]; try reflexivity.
  unfold display_prompt, display_lines, enumerate. cbn [provided]. cbv beta iota.
  rewrite option_lines_numbered.
  change ([prompt; lit ""; lit "Options:"] ++ numbered_from 1 (c :: cs)
          ++ [lit "(Type the value or its number)"])
    with (prompt :: lit "" :: lit "Options:"
          :: (numbered_from 1 (c :: cs) ++ [lit "(Type the value or its number)"])).
  rewrite !join_cons by discriminate.
  rewrite join_snoc by discriminate.
  reflexivity.
Qed.

(** The prompt opens the display prompt. *)
Lemma display_prompt_prefix (prompt : str) (choices : option (list str)) :
  exists rest, display_prompt prompt choices = prompt ++ rest
               /\ (provided choices <> [] -> rest <> []).
Proof.
  unfold display_prompt. destruct (provided choices) as [|c cs].
  - exists []. split; [now rewrite app_nil_r|congruence].
  - eexists. split; [reflexivity|discriminate].
Qed.

Example display_prompt_environments :
  display_prompt (lit "Deploy where?") (Some environments)
  = lit "Deploy where?" ++ NL ++ NL
    ++ lit "Options:" ++ NL
    ++ lit "1) dev" ++ NL ++ lit "2) staging" ++ NL ++ lit "3) prod" ++ NL
    ++ lit "(Type the value or its number)".
Proof. reflexivity. Qed.

(** C9.  A call that returns reports the prompt it was given as the
    [question], with or without choices; the message that went out is the
    display prompt, which differs from the prompt once choices are given. *)
Theorem question_is_the_prompt {rt : Runtime}
    (ctx : Context) (prompt : str) (choices : option (list str))
    (sent sent' : session) (r : ClarificationResult) :
  ask_clarification ctx prompt choices sent = (Returns r, sent') ->
  question r = prompt
  /\ sent' = sent ++ [display_prompt prompt choices]
  /\ (provided choices <> [] -> display_prompt prompt choices <> prompt).
Proof.
  intros Hcall. repeat split.
  - destruct (awaited ctx prompt choices sent) as [result|e] eqn:Haw.
    + rewrite (ask_clarification_answered _ _ _ _ Haw) in Hcall.
      destruct (extract_answer result) as [a|e]; [|discriminate Hcall].
      simpl in Hcall.
      destruct (resolve_choice choices a) as [a'|e]; [|discriminate Hcall].
      simpl in Hcall. injection Hcall as <- _. reflexivity.
    + destruct (ask_clarification_failed_raises _ _ _ _ Haw) as [e' He'].
      rewrite Hcall in He'. discriminate He'.
  - pose proof (ask_clarification_sends_once ctx prompt choices sent) as Hs.
    rewrite Hcall in Hs. exact Hs.
  - intros Hne Heq.
    destruct (display_prompt_prefix prompt choices) as (rest & Hrest & Hnonempty).
    rewrite Hrest in Heq. apply (f_equal (@length char)) in Heq.
    rewrite length_app in Heq.
    destruct rest; [now apply Hnonempty|simpl in Heq; lia].
Qed.

Lemma question_is_the_prompt_witness :
  question {| question := lit "Deploy where?"; answer := lit "staging" |}
  = lit "Deploy where?"
  /\ display_prompt (lit "Deploy where?") (Some environments) <> lit "Deploy where?".
Proof.
  destruct (@question_is_the_prompt sample_runtime (answering 1500 (lit "2"))
              (lit "Deploy where?") (Some environments) []
              [display_prompt (lit "Deploy where?") (Some environments)]
              {| question := lit "Deploy where?"; answer := lit "staging" |}
              eq_refl) as (Hq & _ & Hd).
  split; [exact Hq|]. apply Hd. discriminate.
Defined.

(** ** Claims on answer extraction *)

(** C6, as stated, fails: on the accept path the handler converts the
    payload once more, so a payload whose own conversion raises makes the
    extraction raise. *)
Lemma extraction_can_raise :
  extract_answer (accept_with unprintable)
  = Raises (Exc ValueError (lit "cannot render") None)
  /\ ~ (forall (rt : Runtime) (result : pyobj),
          exists a, extract_answer result = Returns a).
Proof.
  split; [reflexivity|].
  intros Htotal.
  destruct (Htotal sample_runtime (accept_with unprintable)) as [a Ha].
  discriminate Ha.
Qed.

(** C6, amended.  The direct path never raises and yields the empty text
    when the conversion it attempts fails.  On the accept path a failed
    conversion of the [answer] attribute or entry degrades to the trimmed
    text of the whole payload; the extraction returns whenever the payload
    itself converts to text, and raises only with the exception of that
    conversion. *)
Theorem extraction_fails_only_with_payload_text {rt : Runtime} (result : pyobj) :
  (accepted result = false ->
     exists a,
       extract_answer result = Returns a /\
       (forall e, str_ (direct_source result) = Raises e -> a = lit ""))
  /\
  (accepted result = true ->
     (forall e,
        str_ (accepted_source (getattr_or result "data" PyNone)) = Raises e ->
        extract_answer result = stripped_text (getattr_or result "data" PyNone)) /\
     (forall w,
        str_ (getattr_or result "data" PyNone) = Returns w ->
        exists a, extract_answer result = Returns a) /\
     (forall e,
        extract_answer result = Raises e ->
        str_ (getattr_or result "data" PyNone) = Raises e)).
Proof.
  rewrite extract_answer_paths. split; intros Hpath; rewrite Hpath.
  - rewrite extract_direct_spec.
    destruct (str_ (direct_source result)) as [t|e0].
    + exists (strip t). split; [reflexivity|]. intros e He. discriminate He.
    + exists []. split; reflexivity.
  - set (data := getattr_or result "data" PyNone).
    rewrite extract_accepted_spec. unfold stripped_text.
    destruct (str_ (accepted_source data)) as [t|e0]; repeat split.
    + intros e He. discriminate He.
    + intros w Hw. rewrite Hw. simpl.
      destruct (_ && is_empty (strip t))%bool; eexists; reflexivity.
    + intros e. destruct (_ && is_empty (strip t))%bool; [|discriminate].
      destruct (str_ data); simpl; congruence.
    + intros w Hw. rewrite Hw. simpl. eexists; reflexivity.
    + intros e. destruct (str_ data); simpl; congruence.
Qed.

Lemma extraction_fails_only_with_payload_text_witness :
  extract_answer (PyObj [("answer"%string, unprintable)] None (Returns (lit "reply")))
  = Returns (lit "")
  /\ extract_answer
       (accept_with (PyObj [("answer"%string, unprintable)] None
                           (Returns (lit " whole payload "))))
     = Returns (lit "whole payload")
  /\ str_ unprintable = Raises (Exc ValueError (lit "cannot render") None).
Proof.
  split; [|split].
  - destruct (proj1 (@extraction_fails_only_with_payload_text sample_runtime
                       (PyObj [("answer"%string, unprintable)] None
                              (Returns (lit "reply"))))
                    eq_refl) as (a & Ha & Hempty).
    rewrite Ha. f_equal.
    exact (Hempty (Exc ValueError (lit "cannot render") None) eq_refl).
  - exact (proj1 (proj2 (@extraction_fails_only_with_payload_text sample_runtime
                           (accept_with (PyObj [("answer"%string, unprintable)] None
                                               (Returns (lit " whole payload ")))))
                        eq_refl)
                 (Exc ValueError (lit "cannot render") None) eq_refl).
  - exact (proj2 (proj2 (proj2 (@extraction_fails_only_with_payload_text sample_runtime
                                  (accept_with unprintable))
                               eq_refl))
                 (Exc ValueError (lit "cannot render") None) eq_refl).
Defined.

(** The payload of the malformed-payload scenario: the integer [2], which
    has no [answer] and is no mapping. *)
Example integer_payload_resolves :
  extract_answer (accept_with (PyObj [] None (Returns (lit "2")))) = Returns (lit "2")
  /\ fst (ask_clarification
            {| client := fun _ _ =>
                 Responds 10 (accept_with (PyObj [] None (Returns (lit "2")))) |}
            (lit "Deploy where?") (Some environments) [])
     = Returns {| question := lit "Deploy where?"; answer := lit "staging" |}.
Proof. split; reflexivity. Qed.

(** A declined request: the direct path converts the result itself. *)
Example declined_request_returns_its_text :
  extract_answer sample_decline = Returns (lit "action='decline'").
Proof. reflexivity. Qed.

(** C8, as stated, fails: an [answer] entry whose trimmed text is empty
    is passed over for the text of the whole mapping. *)
Lemma blank_answer_entry_is_passed_over :
  extract_answer (accept_with blank_entry) = Returns (lit "{'answer': '  '}")
  /\ ~ (forall (rt : Runtime) (result : pyobj) attrs items whole v t,
          accepted result = true ->
          getattr_or result "data" PyNone = PyObj attrs (Some items) whole ->
          assoc String.eqb "answer"%string attrs = None ->
          assoc str_eqb (lit "answer") items = Some v ->
          str_ v = Returns t ->
          extract_answer result = Returns (strip t)).
Proof.
  split; [reflexivity|].
  intros Hclaim.
  specialize (Hclaim sample_runtime (accept_with blank_entry) []
                [(lit "answer", PyStr (lit "  "))]
                (Returns (lit "{'answer': '  '}")) (PyStr (lit "  ")) (lit "  ")
                eq_refl eq_refl eq_refl eq_refl eq_refl).
  discriminate Hclaim.
Qed.

(** C8, amended.  For an accepted payload that is a mapping without an
    [answer] attribute: an [answer] entry whose trimmed text is not empty
    is the extracted answer; when the entry is absent, or its trimmed text
    is empty, the answer is the trimmed text of the whole mapping. *)
Theorem mapping_entry_is_used_unless_blank {rt : Runtime}
    (result : pyobj) (attrs : list (string * pyobj))
    (items : list (str * pyobj)) (whole : outcome str) :
  accepted result = true ->
  getattr_or result "data" PyNone = PyObj attrs (Some items) whole ->
  assoc String.eqb "answer"%string attrs = None ->
  (forall v t,
     assoc str_eqb (lit "answer") items = Some v ->
     str_ v = Returns t ->
     strip t <> [] ->
     extract_answer result = Returns (strip t))
  /\
  (forall v t,
     assoc str_eqb (lit "answer") items = Some v ->
     str_ v = Returns t ->
     strip t = [] ->
     extract_answer result = (w <- whole ;; Returns (strip w)))
  /\
  (assoc str_eqb (lit "answer") items = None ->
   extract_answer result = (w <- whole ;; Returns (strip w))).
Proof.
  intros Hacc Hdata Hattr.
  rewrite extract_answer_paths, Hacc, Hdata, extract_accepted_spec.
  assert (Hno : hasattr (PyObj attrs (Some items) whole) "answer" = false)
    by (unfold hasattr; simpl; now rewrite Hattr).
  unfold accepted_source, stripped_text. rewrite Hno.
  unfold dict_get. simpl.
  repeat split.
  - intros v t Hv Ht Hne. rewrite Hv, Ht.
    destruct (strip t); [congruence|reflexivity].
  - intros v t Hv Ht He. rewrite Hv, Ht, He. reflexivity.
  - intros Hv. rewrite Hv. reflexivity.
Qed.

Lemma mapping_entry_is_used_unless_blank_witness :
  extract_answer
    (accept_with (PyObj [] (Some [(lit "answer", PyStr (lit " prod "))])
                        (Returns (lit "{'answer': ' prod '}"))))
  = Returns (lit "prod")
  /\ extract_answer (accept_with blank_entry) = Returns (lit "{'answer': '  '}")
  /\ extract_answer (accept_with (PyObj [] (Some []) (Returns (lit "{}"))))
     = Returns (lit "{}").
Proof.
  split; [|split].
  - refine (proj1 (@mapping_entry_is_used_unless_blank sample_runtime
                     (accept_with (PyObj [] (Some [(lit "answer", PyStr (lit " prod "))])
                                         (Returns (lit "{'answer': ' prod '}"))))
                     [] [(lit "answer", PyStr (lit " prod "))]
                     (Returns (lit "{'answer': ' prod '}")) eq_refl eq_refl eq_refl)
                  (PyStr (lit " prod ")) (lit " prod ") eq_refl eq_refl _).
    discriminate.
  - exact (proj1 (proj2 (@mapping_entry_is_used_unless_blank sample_runtime
                           (accept_with blank_entry) []
                           [(lit "answer", PyStr (lit "  "))]
                           (Returns (lit "{'answer': '  '}")) eq_refl eq_refl eq_refl))
                 (PyStr (lit "  ")) (lit "  ") eq_refl eq_refl eq_refl).
  - exact (proj2 (proj2 (@mapping_entry_is_used_unless_blank sample_runtime
                           (accept_with (PyObj [] (Some []) (Returns (lit "{}"))))
                           [] [] (Returns (lit "{}")) eq_refl eq_refl eq_refl))
                 eq_refl).
Defined.

(** * Further properties of the tool *)

(** ** More on text *)

Section MoreTextFacts.
Context {rt : Runtime}.

Lemma take_drop_while (p : char -> bool) (s : str) :
  take_while p s ++ drop_while p s = s.
Proof.
  induction s as [|c s IH]; simpl; [reflexivity|].
  destruct (p c); simpl; [now rewrite IH|reflexivity].
Qed.

Lemma drop_while_all (p : char -> bool) (a b : str) :
  forallb p a = true -> drop_while p (a ++ b) = drop_while p b.
Proof.
  induction a as [|c a IH]; simpl; [reflexivity|].
  intros H. apply andb_prop in H. destruct H as [Hc Ha].
  rewrite Hc. now apply IH.
Qed.

Lemma drop_while_stops (p : char -> bool) (c : char) (s : str) :
  p c = false -> drop_while p (c :: s) = c :: s.
Proof. intros H. simpl. now rewrite H. Qed.

Lemma take_while_all (p : char -> bool) (a b : str) :
  forallb p a = true -> take_while p (a ++ b) = a ++ take_while p b.
Proof.
  induction a as [|c a IH]; simpl; [reflexivity|].
  intros H. apply andb_prop in H. destruct H as [Hc Ha].
  rewrite Hc. now rewrite IH.
Qed.

(** Trimming on the right removes a suffix. *)
Lemma rstrip_prefix (s : str) : exists w, s = rstrip s ++ w.
Proof.
  exists (rev (take_while isspace_char (rev s))). unfold rstrip.
  rewrite <- rev_app_distr, take_drop_while. now rewrite rev_involutive.
Qed.

Lemma rstrip_blank_head (b : char) (s : str) :
  rstrip (b :: s) = [] \/ exists t, rstrip (b :: s) = b :: t.
Proof.
  destruct (rstrip_prefix (b :: s)) as [w Hw].
  destruct (rstrip (b :: s)) as [|x t]; [now left|].
  right. exists t. simpl in Hw. now injection Hw as <- _.
Qed.

Lemma take_while_rstrip (s : str) :
  take_while (fun c => negb (isspace_char c)) (rstrip s)
  = take_while (fun c => negb (isspace_char c)) s.
Proof.
  induction s as [|c s IH]; [reflexivity|].
  destruct (isspace_char c) eqn:E.
  - destruct (rstrip_blank_head c s) as [H | [t H]]; rewrite H; simpl.
    + now rewrite E.
    + now rewrite E.
  - rewrite rstrip_cons by exact E. simpl. rewrite E. simpl. now rewrite IH.
Qed.

(** Trimming a text does not change its first token: [s.strip().split()]
    and [s.split()] start alike. *)
Lemma first_token_strip (s : str) : first_token (strip s) = first_token s.
Proof.
  destruct (strip_shape s) as [Hnil | (c & r & Hl & Hc & Hs)].
  - rewrite Hnil. unfold first_token. simpl.
    unfold strip, rstrip in Hnil.
    destruct (lstrip s) as [|c r] eqn:El; [reflexivity|].
    exfalso. unfold lstrip in El.
    assert (Hc : isspace_char c = false).
    { clear Hnil. induction s as [|x s IHs]; simpl in El; [discriminate|].
      destruct (isspace_char x) eqn:Ex; [now apply IHs|].
      injection El as <- _. exact Ex. }
    fold (rstrip (c :: r)) in Hnil. rewrite rstrip_cons in Hnil by exact Hc.
    discriminate Hnil.
  - rewrite Hs. unfold first_token. rewrite Hl.
    unfold lstrip. rewrite drop_while_stops by exact Hc.
    simpl. rewrite Hc. simpl. now rewrite take_while_rstrip.
Qed.

Lemma valid_index_strip (n : nat) (s : str) (i : Z) :
  valid_index n (strip s) i <-> valid_index n s i.
Proof. unfold valid_index. now rewrite first_token_strip. Qed.

(** ** Printing a number and reading it back *)

Lemma uint_chars_ascii (u : Decimal.uint) :
  forallb (in_range 48 57) (uint_chars u) = true.
Proof. induction u; simpl; try rewrite IHu; reflexivity. Qed.

Lemma str_of_nat_nonempty (n : nat) : str_of_nat n <> [].
Proof.
  unfold str_of_nat. intros H.
  pose proof (Unsigned.of_to n) as Hn.
  destruct (Nat.to_uint n) eqn:E; try discriminate H.
  simpl in Hn. subst n. discriminate E.
Qed.

Lemma decimal_digits_uint (u : Decimal.uint) (acc : nat) :
  reads_ascii_digits rt ->
  decimal_digits (Z.of_nat acc) (uint_chars u)
  = Some (Z.of_nat (Nat.of_uint_acc u acc)).
Proof.
  intros Hrt. revert acc.
  induction u as [|u IH|u IH|u IH|u IH|u IH|u IH|u IH|u IH|u IH|u IH];
    intros acc; [reflexivity|..];
    cbn [uint_chars decimal_digits Nat.of_uint_acc];
    match goal with
    | |- context [decimal_value (digit_char ?d)] =>
        destruct (Hrt (digit_char d) eq_refl) as (_ & _ & Hv); rewrite Hv
    end;
    rewrite <- IH; f_equal; rewrite Nat.tail_mul_spec;
    cbn [digit_char]; simpl Z.of_N; lia.
Qed.

(** [int(str(n))] is [n]. *)
Lemma int_str_of_nat (n : nat) :
  reads_ascii_digits rt ->
  within_digit_limit rt (length (str_of_nat n)) ->
  int_ (str_of_nat n) = Returns (Z.of_nat n).
Proof.
  intros Hrt Hlim. unfold int_.
  destruct (str_of_nat n) eqn:E; [now apply str_of_nat_nonempty in E|].
  rewrite <- E in *. cbn [is_empty].
  replace (is_empty (str_of_nat n)) with false by (rewrite E; reflexivity).
  assert (Hl : (negb (Nat.eqb int_max_str_digits 0)
                && Nat.ltb int_max_str_digits (length (str_of_nat n)))%bool = false).
  { destruct Hlim as [H0 | Hle].
    - rewrite H0. reflexivity.
    - apply andb_false_iff. right. apply Nat.ltb_ge. exact Hle. }
  rewrite Hl. unfold str_of_nat.
  change 0%Z with (Z.of_nat 0).
  rewrite decimal_digits_uint by exact Hrt.
  fold (Nat.of_uint (Nat.to_uint n)). now rewrite Unsigned.of_to.
Qed.

End MoreTextFacts.

(** ** More on choice resolution *)

Section MoreResolutionFacts.
Context {rt : Runtime}.

Lemma list_index_member {A} (l : list A) (i : Z) (a : A) :
  list_index l i = Returns a -> In a l.
Proof.
  unfold list_index.
  destruct (_ && _)%bool; [|discriminate].
  destruct (nth_error l _) eqn:E; [|discriminate].
  intros H. injection H as <-. eapply nth_error_In. exact E.
Qed.

(** What the numeric selector picks is the choice at a valid index. *)
Lemma select_by_number_sound (choices : list str) (raw c : str) :
  select_by_number choices raw = Returns (Some c) ->
  exists i, valid_index (length choices) raw i /\
            nth_error choices (Z.to_nat (i - 1)) = Some c.
Proof.
  unfold select_by_number.
  rewrite list_index_zero, split_first.
  destruct (first_token raw) as [token|] eqn:Htok; [|discriminate]. simpl.
  destruct (isdigit (rstrip_chars TOKEN_TAIL token)) eqn:Hdig; [|discriminate].
  destruct (int_ (rstrip_chars TOKEN_TAIL token)) as [idx|e] eqn:Hint; [|discriminate].
  simpl.
  destruct ((1 <=? idx)%Z && (idx <=? Z.of_nat (length choices))%Z) eqn:Hr;
    [|discriminate].
  apply andb_prop in Hr. destruct Hr as [H1 H2].
  apply Z.leb_le in H1. apply Z.leb_le in H2.
  destruct (list_index_in_range choices (conj H1 H2)) as (a & Hnth & Hidx).
  rewrite Hidx. simpl. intros H. injection H as <-.
  exists idx. split; [|exact Hnth].
  exists token. unfold isdigit in Hdig. apply andb_prop in Hdig.
  repeat split; try assumption. apply Hdig.
Qed.

Lemma select_by_number_none (choices : list str) (raw : str) :
  try_except (select_by_number choices raw) swallow = Returns None ->
  forall i, ~ valid_index (length choices) raw i.
Proof.
  intros Hnone i Hi.
  destruct (select_by_number_hit choices Hi) as (c & _ & Hsel).
  rewrite Hsel in Hnone. discriminate Hnone.
Qed.

Lemma select_by_text_sound (choices : list str) (raw c : str) :
  select_by_text choices raw = Some c -> In c choices /\ lower raw = lower c.
Proof.
  induction choices as [|b choices IH]; simpl; [discriminate|].
  destruct (str_eqb (lower raw) (lower b)) eqn:E.
  - intros H. injection H as <-. apply str_eqb_eq in E. split; [now left|exact E].
  - intros H. destruct (IH H) as [Hin Heq]. split; [now right|exact Heq].
Qed.

Lemma select_by_text_unmatched (choices : list str) (raw : str) :
  select_by_text choices raw = None ->
  forall c, In c choices -> lower raw <> lower c.
Proof.
  induction choices as [|b choices IH]; simpl; [intros _ c []|].
  destruct (str_eqb (lower raw) (lower b)) eqn:E; [discriminate|].
  intros H c [<- | Hin].
  - intros Heq. apply str_eqb_eq in Heq. congruence.
  - now apply IH.
Qed.

End MoreResolutionFacts.

(** X1.  Whatever the resolution returns is justified in one of three
    ways: it is the choice at a valid index named by the answer; or the
    answer names no valid index and it is a choice equal to the trimmed
    answer up to case; or the answer names no valid index, equals no
    choice up to case, and comes back as it was. *)
Theorem resolved_answer_is_justified {rt : Runtime}
    (choices : list str) (answer r : str) :
  choices <> [] ->
  resolve_choice (Some choices) answer = Returns r ->
  (exists i, valid_index (length choices) (strip answer) i /\
             nth_error choices (Z.to_nat (i - 1)) = Some r)
  \/ ((forall i, ~ valid_index (length choices) (strip answer) i) /\
      In r choices /\ lower (strip answer) = lower r)
  \/ ((forall i, ~ valid_index (length choices) (strip answer) i) /\
      (forall c, In c choices -> lower (strip answer) <> lower c) /\
      r = answer).
Proof.
  intros Hne. rewrite resolve_choice_unfold by exact Hne.
  destruct (try_except (select_by_number choices (strip answer)) swallow)
    as [[c|]|e] eqn:Hsel; cbn [bind_outcome].
  - intros H. injection H as <-. left.
    apply select_by_number_sound.
    destruct (select_by_number choices (strip answer)) as [o|e]; simpl in Hsel.
    + exact Hsel.
    + discriminate Hsel.
  - pose proof (@select_by_number_none _ _ _ Hsel) as Hno.
    destruct (select_by_text choices (strip answer)) as [c|] eqn:Htext;
      intros H; injection H as <-.
    + right. left. destruct (@select_by_text_sound _ _ _ _ Htext) as [Hin Heq].
      repeat split; assumption.
    + right. right. split; [exact Hno|]. split; [|reflexivity].
      now apply select_by_text_unmatched.
  - discriminate.
Qed.

Lemma resolved_answer_is_justified_witness :
  (exists i, valid_index 3 (strip (lit " Prod ")) i /\
             nth_error environments (Z.to_nat (i - 1)) = Some (lit "prod"))
  \/ ((forall i, ~ valid_index 3 (strip (lit " Prod ")) i) /\
      In (lit "prod") environments /\
      lower (strip (lit " Prod ")) = lower (lit "prod"))
  \/ ((forall i, ~ valid_index 3 (strip (lit " Prod ")) i) /\
      (forall c, In c environments -> lower (strip (lit " Prod ")) <> lower c) /\
      lit "prod" = lit " Prod ").
Proof.
  assert (Hne : environments <> []) by discriminate.
  exact (@resolved_answer_is_justified sample_runtime environments
           (lit " Prod ") (lit "prod") Hne eq_refl).
Defined.

(** ** Answering with what the display prompt shows *)

Section DisplayedNumbers.
Context {rt : Runtime}.

Lemma forallb_rev {A} (p : A -> bool) (l : list A) :
  forallb p l = true -> forallb p (rev l) = true.
Proof.
  rewrite !forallb_forall. intros H x Hx. apply H. now apply in_rev.
Qed.

Lemma mem_char_In (chars : str) (c : char) :
  mem_char chars c = true -> In c chars.
Proof.
  unfold mem_char. intros H. apply existsb_exists in H.
  destruct H as (x & Hin & Heq). apply N.eqb_eq in Heq. now subst.
Qed.

Lemma digit_not_in_tail (c : char) :
  in_range 48 57 c = true -> mem_char TOKEN_TAIL c = false.
Proof.
  unfold in_range. intros H. apply andb_prop in H. destruct H as [Hlo Hhi].
  apply N.leb_le in Hlo. apply N.leb_le in Hhi.
  unfold mem_char, TOKEN_TAIL. simpl.
  repeat (apply orb_false_intro; [apply N.eqb_neq; lia|]). reflexivity.
Qed.

(** Dropping the trailing punctuation of digits followed by punctuation
    leaves the digits. *)
Lemma rstrip_chars_digits (digits tail : str) :
  forallb (in_range 48 57) digits = true ->
  forallb (mem_char TOKEN_TAIL) tail = true ->
  rstrip_chars TOKEN_TAIL (digits ++ tail) = digits.
Proof.
  intros Hd Ht. unfold rstrip_chars. rewrite rev_app_distr.
  rewrite drop_while_all by (now apply forallb_rev).
  destruct (rev digits) as [|c r] eqn:E.
  - simpl. apply (f_equal (@rev char)) in E. now rewrite rev_involutive in E.
  - assert (Hcr : forallb (in_range 48 57) (c :: r) = true)
      by (rewrite <- E; now apply forallb_rev).
    simpl in Hcr. apply andb_prop in Hcr. destruct Hcr as [Hc _].
    rewrite drop_while_stops by (now apply digit_not_in_tail).
    rewrite <- E. apply rev_involutive.
Qed.

(** A printed number, followed by punctuation of the token tail and then
    by nothing or by a blank and anything, names its own value. *)
Lemma printed_number_names_index (n k : nat) (tail rest : str) :
  reads_ascii_digits rt ->
  forallb (fun x => negb (isspace_char x)) TOKEN_TAIL = true ->
  within_digit_limit rt (length (str_of_nat (k + 1))) ->
  forallb (mem_char TOKEN_TAIL) tail = true ->
  match rest with [] => true | b :: _ => isspace_char b end = true ->
  k < n ->
  valid_index n (strip (str_of_nat (k + 1) ++ tail ++ rest)) (Z.of_nat (k + 1)).
Proof.
  intros Hrt Hpunct Hlim Htail Hrest Hk.
  apply valid_index_strip.
  pose proof (int_str_of_nat (k + 1) Hrt Hlim) as Hint.
  pose proof (str_of_nat_nonempty (k + 1)) as Hnonempty.
  assert (Hascii : forallb (in_range 48 57) (str_of_nat (k + 1)) = true)
    by apply uint_chars_ascii.
  remember (str_of_nat (k + 1)) as digits eqn:Ed. clear Ed Hlim.
  assert (Hdnb : forallb (fun x => negb (isspace_char x)) digits = true).
  { rewrite forallb_forall in *. intros x Hx.
    destruct (Hrt x (Hascii x Hx)) as (Hs & _). now rewrite Hs. }
  assert (Htnb : forallb (fun x => negb (isspace_char x)) tail = true).
  { rewrite forallb_forall in *. intros x Hx.
    apply Hpunct. apply mem_char_In. now apply Htail. }
  exists (digits ++ tail). repeat split.
  - unfold first_token, lstrip.
    destruct digits as [|d ds]; [congruence|].
    simpl in Hdnb. apply andb_prop in Hdnb. destruct Hdnb as [Hd Hds].
    apply negb_true_iff in Hd.
    change ((d :: ds) ++ tail ++ rest) with (d :: (ds ++ tail ++ rest)).
    rewrite drop_while_stops by exact Hd.
    cbn [take_while]. rewrite Hd. cbn [negb].
    rewrite take_while_all by exact Hds.
    rewrite take_while_all by exact Htnb.
    destruct rest as [|b rest']; simpl.
    + now rewrite app_nil_r.
    + rewrite Hrest. simpl. now rewrite app_nil_r.
  - rewrite rstrip_chars_digits by assumption.
    rewrite forallb_forall in *. intros x Hx.
    now destruct (Hrt x (Hascii x Hx)) as (_ & Hdg & _).
  - rewrite rstrip_chars_digits by assumption. exact Hint.
  - lia.
  - lia.
Qed.

Lemma enumerate_from_member {A} (start k : nat) (a : A) (l : list A) :
  In (k, a) (enumerate_from start l) ->
  start <= k /\ nth_error l (k - start) = Some a.
Proof.
  revert start. induction l as [|x l IH]; intros start; simpl; [intros []|].
  intros [H | H].
  - injection H as <- <-. split; [lia|]. now rewrite Nat.sub_diag.
  - destruct (IH _ H) as [Hle Hnth]. split; [lia|].
    replace (k - start) with (S (k - S start)) by lia. exact Hnth.
Qed.

End DisplayedNumbers.

(** X2.  On a runtime that reads ASCII digits and does not take the
    punctuation [).:]] for blanks, answering with the position of a
    choice as the display prompt prints it, optionally followed by such
    punctuation and then by a blank and any text, returns that choice. *)
Theorem displayed_number_selects_its_choice {rt : Runtime}
    (choices : list str) (k : nat) (c tail rest : str) :
  reads_ascii_digits rt ->
  forallb (fun x => negb (isspace_char x)) TOKEN_TAIL = true ->
  within_digit_limit rt (length (str_of_nat (k + 1))) ->
  forallb (mem_char TOKEN_TAIL) tail = true ->
  match rest with [] => true | b :: _ => isspace_char b end = true ->
  nth_error choices k = Some c ->
  resolve_choice (Some choices) (str_of_nat (k + 1) ++ tail ++ rest) = Returns c.
Proof.
  intros Hrt Hpunct Hlim Htail Hrest Hnth.
  assert (Hk : k < length choices) by (apply nth_error_Some; congruence).
  assert (Hne : choices <> []) by (intros ->; simpl in Hk; lia).
  pose proof (@printed_number_names_index _ (length choices) k tail rest
                Hrt Hpunct Hlim Htail Hrest Hk) as Hidx.
  destruct (resolve_by_number _ Hne Hidx) as (c' & Hnth' & Hres).
  rewrite Hres. f_equal.
  replace (Z.to_nat (Z.of_nat (k + 1) - 1)) with k in Hnth' by lia.
  congruence.
Qed.

Lemma sample_runtime_reads_ascii_digits : reads_ascii_digits sample_runtime.
Proof.
  intros c H. unfold in_range in H. apply andb_prop in H. destruct H as [Hlo Hhi].
  apply N.leb_le in Hlo. apply N.leb_le in Hhi.
  assert (Hc : (c = 48 \/ c = 49 \/ c = 50 \/ c = 51 \/ c = 52 \/ c = 53
                \/ c = 54 \/ c = 55 \/ c = 56 \/ c = 57)%N) by lia.
  repeat (destruct Hc as [-> | Hc]; [repeat split|]). subst c. repeat split.
Qed.

Lemma displayed_number_selects_its_choice_witness :
  resolve_choice (Some environments) (lit "3: prod, please") = Returns (lit "prod").
Proof.
  exact (@displayed_number_selects_its_choice sample_runtime environments 2
           (lit "prod") (lit ":") (lit " prod, please")
           sample_runtime_reads_ascii_digits eq_refl
           (or_intror (proj1 (Nat.leb_le 1 4300) eq_refl)) eq_refl eq_refl eq_refl).
Defined.

(** X3.  Under the same assumptions, and with the space a blank, every
    option line of the display prompt, given back verbatim as the answer,
    selects the choice it shows. *)
Theorem displayed_line_selects_its_choice {rt : Runtime}
    (choices : list str) (k : nat) (c : str) :
  reads_ascii_digits rt ->
  forallb (fun x => negb (isspace_char x)) TOKEN_TAIL = true ->
  isspace_char 32%N = true ->
  within_digit_limit rt (length (str_of_nat (k + 1))) ->
  In (k, c) (enumerate choices) ->
  resolve_choice (Some choices) (option_line (k, c)) = Returns c.
Proof.
  intros Hrt Hpunct Hsp Hlim Hin.
  destruct (@enumerate_from_member _ _ _ _ _ Hin) as [_ Hnth].
  rewrite Nat.sub_0_r in Hnth.
  assert (Hk : k < length choices) by (apply nth_error_Some; congruence).
  assert (Hne : choices <> []) by (intros ->; simpl in Hk; lia).
  pose proof (@printed_number_names_index _ (length choices) k (lit ")") (32%N :: c)
                Hrt Hpunct Hlim eq_refl Hsp Hk) as Hidx.
  destruct (resolve_by_number _ Hne Hidx) as (c' & Hnth' & Hres).
  unfold option_line. cbn [fst snd].
  change (lit ") " ++ c) with (lit ")" ++ 32%N :: c).
  rewrite Hres. f_equal.
  replace (Z.to_nat (Z.of_nat (k + 1) - 1)) with k in Hnth' by lia.
  congruence.
Qed.

Lemma displayed_line_selects_its_choice_witness :
  In (1, lit "staging") (enumerate environments) /\
  option_line (1, lit "staging") = lit "2) staging" /\
  resolve_choice (Some environments) (lit "2) staging") = Returns (lit "staging").
Proof.
  assert (Hin : In (1, lit "staging") (enumerate environments))
    by (right; left; reflexivity).
  split; [exact Hin|]. split; [reflexivity|].
  exact (@displayed_line_selects_its_choice sample_runtime environments 1
           (lit "staging") sample_runtime_reads_ascii_digits eq_refl eq_refl
           (or_intror (proj1 (Nat.leb_le 1 4300) eq_refl)) Hin).
Defined.

(** X4.  Typing the value of a choice returns that choice, provided the
    value carries no blank at either end, does not read as a valid
    position, and no earlier choice equals it up to case. *)
Theorem typed_value_selects_its_choice {rt : Runtime}
    (before after : list str) (c : str) :
  strip c = c ->
  (forall i, ~ valid_index (length (before ++ c :: after)) c i) ->
  (forall c', In c' before -> lower c <> lower c') ->
  resolve_choice (Some (before ++ c :: after)) c = Returns c.
Proof.
  intros Htrim Hno Hbefore.
  assert (Hne : before ++ c :: after <> []) by (destruct before; discriminate).
  rewrite resolve_by_text; [|exact Hne|now rewrite Htrim].
  rewrite Htrim.
  now rewrite (select_by_text_first before after c c Hbefore eq_refl).
Qed.

Lemma typed_value_selects_its_choice_witness :
  strip (lit "staging") = lit "staging" /\
  (forall i, ~ valid_index 3 (lit "staging") i) /\
  (forall c', In c' [lit "dev"] -> lower (lit "staging") <> lower c') /\
  resolve_choice (Some environments) (lit "staging") = Returns (lit "staging").
Proof.
  assert (H1 : forall i, ~ valid_index 3 (lit "staging") i) by no_index.
  assert (H2 : forall c', In c' [lit "dev"] -> lower (lit "staging") <> lower c')
    by no_text_match.
  split; [reflexivity|]. split; [exact H1|]. split; [exact H2|].
  exact (@typed_value_selects_its_choice sample_runtime [lit "dev"] [lit "prod"]
           (lit "staging") eq_refl H1 H2).
Defined.

(** X5.  Appending further choices to the list never changes what an
    answer that names a valid position selects. *)
Theorem appended_choices_keep_numeric_selection {rt : Runtime}
    (choices more : list str) (answer : str) (i : Z) :
  choices <> [] ->
  valid_index (length choices) (strip answer) i ->
  resolve_choice (Some (choices ++ more)) answer
  = resolve_choice (Some choices) answer.
Proof.
  intros Hne Hi.
  assert (Hne' : choices ++ more <> []) by (destruct choices; [congruence|discriminate]).
  assert (Hi' : valid_index (length (choices ++ more)) (strip answer) i).
  { destruct Hi as (token & Htok & Hdig & Hint & Hr).
    exists token. rewrite length_app. repeat split; try assumption; lia. }
  destruct (resolve_by_number answer Hne Hi) as (c & Hnth & Hres).
  destruct (resolve_by_number answer Hne' Hi') as (c' & Hnth' & Hres').
  rewrite Hres, Hres'. f_equal.
  rewrite nth_error_app1 in Hnth'; [congruence|].
  apply nth_error_Some. congruence.
Qed.

Lemma appended_choices_keep_numeric_selection_witness :
  valid_index 3 (strip (lit "2.")) 2 /\
  resolve_choice (Some (environments ++ [lit "2."; lit "qa"])) (lit "2.")
  = resolve_choice (Some environments) (lit "2.").
Proof.
  assert (Hne : environments <> []) by discriminate.
  assert (H1 : valid_index 3 (strip (lit "2.")) 2) by index_of_token (lit "2.").
  split; [exact H1|].
  exact (@appended_choices_keep_numeric_selection sample_runtime environments
           [lit "2."; lit "qa"] (lit "2.") 2 Hne H1).
Defined.

(** ** More on the request *)

(** X6.  Every call, whatever its outcome, sends exactly one message, the
    display prompt, after the messages already sent; two calls in a row
    send their two display prompts in order. *)
Theorem each_call_sends_one_request {rt : Runtime}
    (ctx : Context) (prompt1 prompt2 : str) (choices1 choices2 : option (list str))
    (sent : session) :
  snd (ask_clarification ctx prompt1 choices1 sent)
  = sent ++ [display_prompt prompt1 choices1]
  /\ snd (ask_clarification ctx prompt2 choices2
            (snd (ask_clarification ctx prompt1 choices1 sent)))
     = sent ++ [display_prompt prompt1 choices1; display_prompt prompt2 choices2].
Proof.
  rewrite !ask_clarification_sends_once. split; [reflexivity|].
  now rewrite <- app_assoc.
Qed.

(** X7.  A failure of the awaited elicitation that is an
    [asyncio.TimeoutError] is reported as the 60-second timeout, whenever
    it occurred, and its own message and identity are dropped. *)
Theorem channel_timeout_is_reported_as_deadline {rt : Runtime}
    (ctx : Context) (prompt : str) (choices : option (list str)) (sent : session)
    (elapsed_ms : N) (e : exception) :
  client ctx (length sent) (display_prompt prompt choices) = Fails elapsed_ms e ->
  is_asyncio_timeout e = true ->
  fst (ask_clarification ctx prompt choices sent)
  = Raises (Exc TimeoutError
              (lit "MCP error -32001: Clarification request timed out after 60 seconds")
              None).
Proof.
  intros Hclient Hkind.
  assert (Haw : exists e', awaited ctx prompt choices sent = Raises e'
                           /\ is_asyncio_timeout e' = true).
  { unfold awaited, wait_for. rewrite Hclient.
    destruct (elapsed_ms <? 60000)%N; eexists; split; try reflexivity; assumption. }
  destruct Haw as (e' & Haw & Hkind').
  rewrite (ask_clarification_failed _ _ _ _ Haw). now rewrite Hkind'.
Qed.

Lemma channel_timeout_is_reported_as_deadline_witness :
  fst (ask_clarification (giving_up 5) (lit "Proceed?") None [])
  = Raises (Exc TimeoutError
              (lit "MCP error -32001: Clarification request timed out after 60 seconds")
              None).
Proof.
  exact (@channel_timeout_is_reported_as_deadline sample_runtime (giving_up 5)
           (lit "Proceed?") None [] 5
           (Exc AsyncioTimeoutError (lit "transport timed out") None)
           eq_refl eq_refl).
Defined.

Section MoreToolFacts.
Context {rt : Runtime}.

Lemma resolve_choice_member (choices : option (list str)) (a r : str) :
  resolve_choice choices a = Returns r -> r = a \/ In r (provided choices).
Proof.
  unfold resolve_choice.
  destruct (provided choices) as [|c0 cs] eqn:Ep.
  - intros H. injection H as <-. now left.
  - destruct (select_by_number (c0 :: cs) (strip a)) as [[c|]|e] eqn:Hsel;
      cbn [try_except swallow bind_outcome].
    + intros H. injection H as <-. right.
      destruct (select_by_number_sound _ _ Hsel) as (i & _ & Hnth).
      eapply nth_error_In. exact Hnth.
    + destruct (select_by_text (c0 :: cs) (strip a)) as [c|] eqn:Ht;
        intros H; injection H as <-.
      * right. now destruct (@select_by_text_sound _ _ _ _ Ht).
      * now left.
    + destruct (select_by_text (c0 :: cs) (strip a)) as [c|] eqn:Ht;
        intros H; injection H as <-.
      * right. now destruct (@select_by_text_sound _ _ _ _ Ht).
      * now left.
Qed.


End MoreToolFacts.



(** X9.  The answer of a call that returns is one of the choices given,
    or a text without blanks at either end. *)
Theorem returned_answer_is_choice_or_trimmed {rt : Runtime}
    (ctx : Context) (prompt : str) (choices : option (list str)) (sent : session)
    (r : ClarificationResult) :
  fst (ask_clarification ctx prompt choices sent) = Returns r ->
  In (answer r) (provided choices) \/ strip (answer r) = answer r.
Proof.
  destruct (awaited ctx prompt choices sent) as [result|e0] eqn:Haw.
  - rewrite (ask_clarification_answered _ _ _ _ Haw). cbn [fst].
    destruct (extract_answer result) as [a|e1] eqn:Hex; cbn [bind_outcome];
      [|discriminate].
    destruct (resolve_choice choices a) as [a'|e2] eqn:Hres; cbn [bind_outcome];
      [|discriminate].
    intros H. injection H as <-. cbn [answer].
    destruct (resolve_choice_member _ _ Hres) as [-> | Hin].
    + right. eapply extract_answer_trimmed. exact Hex.
    + now left.
  - destruct (ask_clarification_failed_raises _ _ _ _ Haw) as [e' ->].
    discriminate.
Qed.

Lemma returned_answer_is_choice_or_trimmed_witness :
  In (lit "staging") environments \/ strip (lit "staging") = lit "staging".
Proof.
  exact (@returned_answer_is_choice_or_trimmed sample_runtime
           (answering 1500 (lit " 2) ")) (lit "Deploy where?") (Some environments) []
           {| question := lit "Deploy where?"; answer := lit "staging" |} eq_refl).
Defined.

(** ** More on answer extraction *)

(** X10.  Unless the action is [accept], the data payload is never read:
    two responses that differ in their [data] attribute only yield the
    same extraction. *)
Theorem payload_is_read_only_when_accepted {rt : Runtime}
    (attrs1 attrs2 : list (string * pyobj))
    (items : option (list (str * pyobj))) (text : outcome str) :
  (forall name, name <> "data"%string ->
                assoc String.eqb name attrs1 = assoc String.eqb name attrs2) ->
  eq_text (getattr_or (PyObj attrs1 items text) "action" PyNone) (lit "accept")
  = false ->
  extract_answer (PyObj attrs1 items text) = extract_answer (PyObj attrs2 items text).
Proof.
  intros Hsame Haction.
  assert (Hact : assoc String.eqb "action"%string attrs1
                 = assoc String.eqb "action"%string attrs2)
    by (apply Hsame; discriminate).
  assert (Hans : assoc String.eqb "answer"%string attrs1
                 = assoc String.eqb "answer"%string attrs2)
    by (apply Hsame; discriminate).
  unfold extract_answer, getattr_or in *. cbn [attrs_of] in *.
  rewrite <- Hact, Haction. cbn [andb].
  unfold extract_direct, hasattr, getattr. cbn [attrs_of].
  now rewrite Hans.
Qed.

Lemma payload_is_read_only_when_accepted_witness :
  extract_answer
    (PyObj [("action"%string, PyStr (lit "cancel"));
            ("data"%string, PyObj [("answer"%string, PyStr (lit "prod"))] None
                                  (Returns (lit "answer='prod'")))]
           None (Returns (lit "action='cancel'")))
  = extract_answer
      (PyObj [("action"%string, PyStr (lit "cancel"))]
             None (Returns (lit "action='cancel'"))).
Proof.
  apply (@payload_is_read_only_when_accepted sample_runtime); [|reflexivity].
  intros name Hname. cbn [assoc].
  destruct (String.eqb name "action"); [reflexivity|].
  destruct (String.eqb name "data") eqn:E; [|reflexivity].
  apply String.eqb_eq in E. contradiction.
Defined.

(** X11.  On the direct path a mapping's [answer] entry is the answer
    whatever its text, an empty or blank one included: there is no
    fallback to the text of the mapping there. *)
Theorem direct_entry_is_used_even_when_blank {rt : Runtime}
    (result : pyobj) (items : list (str * pyobj)) (v : pyobj) (t : str) :
  accepted result = false ->
  hasattr result "answer" = false ->
  items_of result = Some items ->
  assoc str_eqb (lit "answer") items = Some v ->
  str_ v = Returns t ->
  extract_answer result = Returns (strip t).
Proof.
  intros Hacc Hattr Hitems Hentry Htext.
  rewrite extract_answer_paths, Hacc, extract_direct_spec.
  unfold direct_source, isinstance_dict, dict_contains, dict_get.
  rewrite Hattr, Hitems, Hentry. cbn [andb]. now rewrite Htext.
Qed.

Lemma direct_entry_is_used_even_when_blank_witness :
  extract_answer blank_entry = Returns (lit "").
Proof.
  exact (@direct_entry_is_used_even_when_blank sample_runtime blank_entry
           [(lit "answer", PyStr (lit "  "))] (PyStr (lit "  ")) (lit "  ")
           eq_refl eq_refl eq_refl eq_refl eq_refl).
Defined.

(** X12.  A response that is not accepted, has no [answer] attribute and
    is no mapping (a declined or cancelled request) does not make the
    call fail: without choices the call returns the trimmed text of the
    response object as the answer. *)
Theorem unaccepted_response_is_answered_with_its_text {rt : Runtime}
    (ctx : Context) (prompt : str) (sent : session) (result : pyobj) (t : str) :
  awaited ctx prompt None sent = Returns result ->
  accepted result = false ->
  hasattr result "answer" = false ->
  isinstance_dict result = false ->
  str_ result = Returns t ->
  fst (ask_clarification ctx prompt None sent)
  = Returns {| question := prompt; answer := strip t |}.
Proof.
  intros Haw Hacc Hattr Hdict Htext.
  rewrite (ask_clarification_answered _ _ _ _ Haw). cbn [fst].
  rewrite extract_answer_paths, Hacc, extract_direct_spec.
  unfold direct_source. rewrite Hattr, Hdict. cbn [andb].
  rewrite Htext. reflexivity.
Qed.

Lemma unaccepted_response_is_answered_with_its_text_witness :
  fst (ask_clarification declining (lit "Proceed?") None [])
  = Returns {| question := lit "Proceed?"; answer := lit "action='decline'" |}.
Proof.
  exact (@unaccepted_response_is_answered_with_its_text sample_runtime declining
           (lit "Proceed?") [] sample_decline (lit "action='decline'")
           eq_refl eq_refl eq_refl eq_refl eq_refl).
Defined.

(** X13.  An answer whose token parses to a number outside the list, zero
    included, selects nothing by number: the range test keeps the index
    zero from reaching [choices[-1]]. *)
Theorem out_of_range_number_selects_nothing {rt : Runtime}
    (choices : list str) (raw token : str) (i : Z) :
  first_token raw = Some token ->
  int_ (rstrip_chars TOKEN_TAIL token) = Returns i ->
  ~ (1 <= i <= Z.of_nat (length choices))%Z ->
  try_except (select_by_number choices raw) swallow = Returns None.
Proof.
  intros Htok Hint Hout. apply select_by_number_miss.
  intros i' (token' & Htok' & _ & Hint' & Hin).
  rewrite Htok in Htok'. injection Htok' as <-.
  rewrite Hint in Hint'. injection Hint' as <-.
  now apply Hout.
Qed.

Lemma out_of_range_number_selects_nothing_witness :
  list_index environments (0 - 1) = Returns (lit "prod") /\
  try_except (select_by_number environments (lit "0")) swallow = Returns None /\
  resolve_choice (Some environments) (lit "0") = Returns (lit "0").
Proof.
  split; [reflexivity|]. split; [|reflexivity].
  refine (@out_of_range_number_selects_nothing sample_runtime environments
            (lit "0") (lit "0") 0 eq_refl eq_refl _).
  simpl. lia.
Defined.
